(* ===== verification/_CoqProject ===== *)
-Q . S2P
Prelude.v
Js.v
Catalog.v
Prepare.v
Proxy.v
Controller.v
Integration.v
Download.v
View.v
Scroll.v
Layout.v
