(* ===== verification/Prelude.v ===== *)
(** * A verification development for the image style-transfer web application

    The program (TypeScript, Next.js) lets a user upload a photo, pick one
    of a fixed catalogue of art styles, and receive a restyled image from
    an external generative model, which can then be downloaded as a JPEG.
    The browser page ([src/app/page.tsx]) holds the state; the uploader
    prepares the image in the browser ([src/lib/utils.ts],
    [src/components/ImageUploader.tsx]); the page posts it to the server
    route [src/app/api/transform/route.ts], which calls the model; the
    result view saves the image ([src/components/ResultView.tsx]).

    Files, in dependency order:

    - [Prelude.v] (this file) -- string lemmas, decimal printing of
      naturals with its round trip, the tactics [invc] and [case_goal],
      the hint databases [sty] and [sty_rw].
    - [Js.v] -- the JavaScript semantics the code relies on: JSON values,
      ToBoolean and [||], template ToString, property access with its
      [TypeError], [split], [find], thrown values, the exception monad
      [completion] with [try_catch], and [traced], a writer monad over
      effects stacked on it (stdpp's [MRet]/[MBind]/[MThrow] instances).
    - [Catalog.v], Module [Catalog] -- [StyleOption] and the 21 entries of
      [STYLES] ([src/lib/styles.ts]) verbatim, the selection test of
      [StyleGrid]/[StyleCard], and the catalogue's well-formedness.
    - [Prepare.v], Module [Prepare] -- [validateFile]; the resize of
      [resizeAndConvertToBase64], literally in exact rationals
      ([resize_dims]: [Math.min], [Math.round] as [Qfloor (x + 1/2)]) and
      as an integer closed form ([resize_dims_Z]), proved equal; the
      canvas and [toDataURL] as the HTML standard defines it, with base64
      per RFC 4648.  [Section Browser] takes the browser's codec (drawing,
      which types it can encode, the encoder) as variables.  The
      uploader's [processFile] is split at its [await] into
      [processFile_start] and [processFile_finish] over its state
      [Uploader].
    - [Proxy.v], Module [Proxy] -- the route's [POST] as a [traced]
      computation: key check ([getAI]), body, parameter check, prompt, the
      timer and [AbortController] as logged effects, the model as an oracle
      [upstream] (reply and latency), the response normalisation and both
      [catch] blocks.  [spec_transform] is the contract of sections 4.3
      and 6.1 of the specification, written from the specification.
      [src/lib/gemini.ts] is its constant and [gemini_ai], the module's
      client identified with its key.
    - [Controller.v], Module [App] -- the page: its five state cells
      ([AppState]), one function per handler, [handleTransform] split at its
      [await] (the completion carries the image and style the closure
      captured, [Pending]).  A [World] adds the uploader's state, the
      preparations and requests in flight and whether the browser's file
      dialog is open.  [page_step] applies one user event when the render
      shows and enables its control (the drop zone's drag, drop and click
      handlers of [ImageUploader], the file input, the style cards, the
      buttons), or one completion of an operation in flight, in any order;
      [step] puts the modal dialog in front of it; [reachable] is the
      closure from the initial world.  [spec_step] is the stage machine of
      section 4.5, labelled by user action, and [stage_of] abstracts a page
      state to its stage.  [eventually] is the liveness modality over
      completions.
    - [Integration.v], Module [Integration] -- the interface between the
      page and the server, class [TransformEndpoint] (what the page relies
      on from the endpoint it fetches), with [proxy_endpoint] discharging
      it with [Proxy.POST]; the page against any endpoint; concrete runs of
      the page (two quick picks, the end-to-end scenario of section 8).
    - [Download.v], Module [Download] -- [downloadAsJpg]: RGBA pixels with
      8-bit channels, the canvas at the image's natural size, the white
      [fillRect] and [drawImage] with source-over compositing ([over]), the
      JPEG encoder as a variable that may fail, the anchor download and its
      file name; [handleDownload] of the result view.
    - [View.v], Module [View] -- the render: [StyleCard], [StyleGrid],
      [TransformButton], [LoadingOverlay], the two renderings of
      [ImageUploader] (with [toFixed(2)] of the size in MB) and
      [ResultView] as functions from props to what they show, and
      [page_view], the render of [Home]; [control_enabled] says which
      controls of a render a user can operate.
    - [Scroll.v], Module [Scroll] -- the two refs of [Home] and the
      scrolls its handlers schedule with [setTimeout] ([page_effects],
      [step_fx]: the page's step with the scrolls it schedules).
    - [Layout.v], Module [Layout] -- [src/app/layout.tsx]: the [metadata]
      and [RootLayout], composed with [page_view] into the [document].

    The theorems:

    - the endpoint refines its contract (on the body the page sends, for
      replies within the timeout), answers every request, checks the key
      and the parameters first, takes the first inline image, and performs
      its effects in a fixed order, calling the model with the request
      built from the body's fields; one divergence: the timer never
      reaches the model call, so a late reply is answered as a timely one
      where the contract prescribes a 504;
    - the resize keeps images that fit and otherwise brings the longer side
      to exactly 1024 with each side correctly rounded; an image more than
      2048 times wider than tall collapses to a canvas without pixels, and
      the page can then never transform it; the preview is the
      [data:<type>;base64,] prefix and the payload; validation accepts
      exactly the supported types up to 10 MiB;
    - the page, by rule induction over [reachable]: at most one request is
      in flight and [isLoading] says when; the held image is always of a
      validated file with its type as [mimeType]; without an image the page
      is in its initial state (so the uploader's [disabled] branches are
      dead); the shown result belongs to the held image as long as no
      preparation settles during a request, and whenever one does (with a
      different preview) the page shows a result that is not the held
      image's; every event refines the labelled stage machine except
      three, and those three, whenever they change the state, depart from
      it;
    - the page through the route: for any configuration with a key and any
      model, the model is asked with the request built from the captured
      image and style, and its first inline image becomes the page's
      result (the end-to-end scenario of section 8 is an instance);
    - liveness: from every reachable world every sequence of completions
      reaches a settled world (nothing in flight, nothing shown as busy),
      by well-founded induction on the number of operations in flight;
    - the render agrees with the step function: with the dialog closed an
      event is accepted exactly when its control is shown and enabled;
      the overlay names the style of the request in flight; the size the
      preview shows reads back as the hundredths ECMAScript's [toFixed]
      prescribes; every scheduled scroll finds its section rendered when it
      fires unless an event that removes the section came first;
    - the download composes the image over white (transparent pixels
      become white, opaque ones are kept, all within 8 bits); on each of
      its paths it saves exactly the encoded composite or rejects with that
      path's message; the button is disabled while it runs and the error
      shown afterwards exactly when nothing was saved; its file name reads
      back;
    - two documentation divergences: the page's metadata announces 20
      styles where the grid shows 21, and [src/lib/gemini.ts] builds its
      client without the key check the route makes.

    Bounds and fuel.  No definition needs fuel: every recursion is
    structural on a list or a string, and the page's runs are finite lists
    of events.  Sizes, dimensions and times are [N] or [Z]; the source's
    numbers are doubles, exact on these integers (all below 2^53).  The
    resize ratio is computed in exact rationals where the source uses
    doubles; the two agree except when a scaled side falls within
    rounding error of a half-integer.  Pixel channels are 8-bit integers
    and a partially transparent pixel is blended with rounding to the
    nearest; fully transparent and opaque pixels, the cases the theorems
    single out, give the same result under any rounding.

    Not modelled: CSS classes, icons, fonts and animations; the scroll's
    motion itself and the time a timer takes (a scheduled scroll is
    judged against every sequence of events before it fires); the file
    input's [accept] filter, a hint to the browser; [console.error] in the
    client; the browser's image decoders and encoders (parameters); the
    JSON wire format (values cross [JSON.stringify]/[req.json()]
    unchanged); the model's behaviour (an oracle); the [GoogleGenAI]
    client beyond its key.  Numbers read from request bodies are
    integers.
*)

From Stdlib Require Export ZArith String Ascii Lia DecimalString DecimalN.
From stdpp Require Export base list strings decidable.

Declare Scope sty_scope.
Delimit Scope sty_scope with sty.
Open Scope string_scope.

Create HintDb sty discriminated.
Create Rewrite HintDb sty_rw.

(** ** Tactics shared by the development *)

Ltac invc H := inversion H; subst; clear H.

(** Invert an equation [e = Some v] whose left side is built of [if],
    [match] and the option monad's bind, and split the boolean guards it
    passes into propositions. *)
Ltac invert_step H :=
  repeat match type of H with
   | (if ?b then None else _) = Some _ => destruct b eqn:?; [discriminate|]
   | (if ?b then _ else _) = Some _ => destruct b eqn:?; [|discriminate]
   | match ?x with _ => _ end = Some _ => destruct x eqn:?; try discriminate
   | mbind _ ?x = Some _ => destruct x eqn:?; simpl in H; try discriminate
   | Some _ = Some _ => injection H as <-
   end;
  repeat match goal with
   | G : _ && _ = true |- _ => apply andb_prop in G as [? ?]
   | G : negb _ = true |- _ => apply negb_true_iff in G
   | G : bool_decide _ = true |- _ => apply bool_decide_eq_true_1 in G
   end.

(** Case analysis on every [if] and [match] of the goal, then close. *)
Ltac case_goal :=
  repeat match goal with
         | |- context [if ?b then _ else _] => destruct b eqn:?
         | |- context [match ?x with _ => _ end] => destruct x eqn:?
         end.

(** ** Strings *)

Section Strings.
Implicit Types s p : string.

(** stdpp declares [String.append] [simpl never]; these two equations
    are its computation rules. *)
Lemma str_app_nil s : (EmptyString ++ s)%string = s.
Proof. reflexivity. Qed.

Lemma str_app_cons a s1 s2 : (String a s1 ++ s2)%string = String a (s1 ++ s2).
Proof. reflexivity. Qed.

Lemma str_app_assoc s1 s2 s3 :
  ((s1 ++ s2) ++ s3)%string = (s1 ++ (s2 ++ s3))%string.
Proof. induction s1; rewrite ?str_app_nil, ?str_app_cons; congruence. Qed.

Lemma str_app_nil_r s : (s ++ EmptyString)%string = s.
Proof. induction s; rewrite ?str_app_nil, ?str_app_cons; congruence. Qed.

Lemma str_app_inv_l p s1 s2 : (p ++ s1)%string = (p ++ s2)%string -> s1 = s2.
Proof.
  induction p; rewrite ?str_app_cons; intros H; [done | injection H as H; auto].
Qed.

Lemma str_app_neq_nil s1 s2 : s1 <> EmptyString -> (s1 ++ s2)%string <> EmptyString.
Proof. destruct s1; [done|]. by rewrite str_app_cons. Qed.

Lemma str_length_app s1 s2 :
  String.length (s1 ++ s2) = (String.length s1 + String.length s2)%nat.
Proof. induction s1; rewrite ?str_app_nil, ?str_app_cons; simpl; lia. Qed.

Lemma str_app_self_neq p s : p <> EmptyString -> (p ++ s)%string <> s.
Proof.
  intros Hp H. apply (f_equal String.length) in H. rewrite str_length_app in H.
  destruct p; [done|]. simpl in H. lia.
Qed.

(** [strip_prefix p s] is [Some r] exactly when [s = p ++ r]. *)
Fixpoint strip_prefix p s : option string :=
  match p, s with
  | EmptyString, _ => Some s
  | String a p', String b s' => if decide (a = b) then strip_prefix p' s' else None
  | String _ _, EmptyString => None
  end.

Lemma strip_prefix_app p s : strip_prefix p (p ++ s) = Some s.
Proof. induction p; rewrite ?str_app_cons; simpl; [done|]. by rewrite decide_True. Qed.

Lemma strip_prefix_Some p s r : strip_prefix p s = Some r -> s = (p ++ r)%string.
Proof.
  revert s; induction p as [|a p IH]; intros [|b s]; simpl; intros H;
    rewrite ?str_app_nil; try congruence.
  case_match; [subst|done]. by rewrite (IH _ H), str_app_cons.
Qed.

(** Membership of a character, as a boolean. *)
Fixpoint str_mem (c : ascii) s : bool :=
  match s with
  | EmptyString => false
  | String a s' => bool_decide (a = c) || str_mem c s'
  end.

Lemma str_mem_app c s1 s2 :
  str_mem c (s1 ++ s2) = str_mem c s1 || str_mem c s2.
Proof.
  induction s1; rewrite ?str_app_cons; simpl; [done|].
  rewrite IHs1. by destruct (bool_decide _).
Qed.

(** Every character satisfies [f]. *)
Fixpoint str_forall (f : ascii -> bool) s : bool :=
  match s with
  | EmptyString => true
  | String a s' => f a && str_forall f s'
  end.

Lemma str_forall_app f s1 s2 :
  str_forall f (s1 ++ s2) = str_forall f s1 && str_forall f s2.
Proof. induction s1; rewrite ?str_app_cons; simpl; [done|]. rewrite IHs1. by destruct (f _). Qed.

Lemma get_str_mem n s c : String.get n s = Some c -> str_mem c s = true.
Proof.
  revert n. induction s as [|a s IH]; intros [|n]; simpl; try discriminate.
  - intros [= ->]. by rewrite bool_decide_eq_true_2.
  - intros H. rewrite (IH n H). apply orb_true_r.
Qed.

Lemma str_forall_not_mem f c s :
  f c = false -> str_forall f s = true -> str_mem c s = false.
Proof.
  intros Hc. induction s as [|a s IH]; simpl; [done|].
  intros [Ha Hs]%andb_prop. rewrite IH by done.
  case_bool_decide; [subst; congruence | done].
Qed.
End Strings.

(** ** Decimal printing of naturals, as JavaScript prints an integer *)

Definition is_digit (c : ascii) : bool :=
  bool_decide (48 <= nat_of_ascii c <= 57)%nat.

Definition string_of_N (n : N) : string :=
  NilEmpty.string_of_uint (N.to_uint n).

Definition N_of_string (s : string) : option N :=
  N.of_uint <$> NilEmpty.uint_of_string s.

Lemma N_of_string_of_N n : N_of_string (string_of_N n) = Some n.
Proof.
  unfold N_of_string, string_of_N. rewrite NilEmpty.usu. simpl.
  by rewrite DecimalN.Unsigned.of_to.
Qed.

Lemma string_of_uint_digits d : str_forall is_digit (NilEmpty.string_of_uint d) = true.
Proof. induction d; simpl; try rewrite IHd; reflexivity. Qed.

Lemma string_of_N_digits n : str_forall is_digit (string_of_N n) = true.
Proof. apply string_of_uint_digits. Qed.

Lemma string_of_N_inj n m : string_of_N n = string_of_N m -> n = m.
Proof.
  intros H. apply (f_equal N_of_string) in H. rewrite !N_of_string_of_N in H.
  congruence.
Qed.

#[export] Hint Resolve str_app_neq_nil string_of_N_digits string_of_uint_digits : sty.
#[export] Hint Rewrite str_app_nil str_app_cons str_app_assoc str_app_nil_r strip_prefix_app str_mem_app
  str_forall_app N_of_string_of_N : sty_rw.
