(* ===== verification/Js.v ===== *)
(** * The JavaScript runtime the program relies on

    The TypeScript code tests values with [!x] and [a || b], builds strings
    with template literals, reads properties of parsed JSON, splits strings
    with [String.prototype.split], indexes arrays, and throws and catches
    values.  This file gives those operations their ECMAScript meaning on a
    small value type, so that every component file can translate the
    source line by line:

    - [json]: the values [JSON.parse] produces (numbers restricted to
      integers); [option json] is a value that may be [undefined];
    - [truthy], [js_or]: ToBoolean and the [||] operator;
    - [to_template]: ToString as a template literal applies it;
    - [get_prop]: property access, throwing [TypeError] on [null] and
      [undefined], last binding winning as in [JSON.parse];
    - [mk_obj]: an object literal after [JSON.stringify], which drops the
      fields whose value is [undefined];
    - [split_char], [js_index]: [s.split(c)] and [a[i]];
    - [exn], [completion]: thrown values and the exception monad, with
      [try_catch] for [try { } catch (e) { }]. *)

From S2P Require Import Prelude.

#[warnings="-register-all"]
Inductive json :=
| JNull
| JBool (b : bool)
| JNum (z : Z)
| JStr (s : string)
| JArr (l : list json)
| JObj (fields : list (string * json)).

(** ** ToBoolean and [||] *)

Definition truthy (v : option json) : bool :=
  match v with
  | None | Some JNull => false
  | Some (JBool b) => b
  | Some (JNum z) => negb (Z.eqb z 0)
  | Some (JStr s) => negb (String.eqb s EmptyString)
  | Some (JArr _) | Some (JObj _) => true
  end.

Definition js_or (a b : option json) : option json :=
  if truthy a then a else b.

(** ** ToString, as [`${v}`] applies it *)

Definition string_of_Z (z : Z) : string :=
  if (z <? 0)%Z then "-" ++ string_of_N (Z.to_N (- z)) else string_of_N (Z.to_N z).

Fixpoint json_to_string (v : json) : string :=
  match v with
  | JNull => "null"
  | JBool true => "true"
  | JBool false => "false"
  | JNum z => string_of_Z z
  | JStr s => s
  | JArr l =>
      (* [Array.prototype.join(",")]: [null] elements print as nothing *)
      let elem (x : json) := match x with JNull => EmptyString | _ => json_to_string x end in
      (fix go (l : list json) : string :=
         match l with
         | [] => EmptyString
         | [x] => elem x
         | x :: l' => elem x ++ "," ++ go l'
         end) l
  | JObj _ => "[object Object]"
  end.

Definition to_template (v : option json) : string :=
  match v with
  | None => "undefined"
  | Some j => json_to_string j
  end.

(** ** Thrown values and the exception monad *)

Inductive exn :=
| ErrorObj (name message : string)   (** an instance of [Error] *)
| ThrownValue (v : option json).     (** any other thrown value *)

Definition Error (msg : string) : exn := ErrorObj "Error" msg.
Definition TypeError (msg : string) : exn := ErrorObj "TypeError" msg.

(** [e instanceof Error ? e.message : dflt] *)
Definition message_or (e : exn) (dflt : string) : string :=
  match e with
  | ErrorObj _ m => m
  | ThrownValue _ => dflt
  end.

Inductive completion (A : Type) :=
| Normal (a : A)
| Abrupt (e : exn).
Arguments Normal {A} a.
Arguments Abrupt {A} e.

#[export] Instance completion_ret : MRet completion := @Normal.
#[export] Instance completion_bind : MBind completion :=
  fun A B f m => match m with Normal a => f a | Abrupt e => Abrupt e end.
#[export] Instance completion_throw : MThrow exn completion := @Abrupt.

Definition try_catch {A} (m : completion A) (h : exn -> completion A) : completion A :=
  match m with
  | Normal a => Normal a
  | Abrupt e => h e
  end.

(** A computation that also records, in order, the effects it performs
    (calls to the outside world, timers, logging): a writer monad over an
    effect type [E] stacked on [completion].  An abrupt completion stops
    the log, as a [throw] stops the code that follows it. *)
Section Traced.
Context {E : Type}.

Definition traced (A : Type) : Type := (list E * completion A)%type.

Definition t_bind {A B} (f : A -> traced B) (m : traced A) : traced B :=
  match m with
  | (l, Normal a) => let '(l', r) := f a in ((l ++ l')%list, r)
  | (l, Abrupt e) => (l, Abrupt e)
  end.

(** Perform one effect. *)
Definition emit (ev : E) : traced unit := ([ev], Normal tt).

(** A pure computation that may throw. *)
Definition lift {A} (c : completion A) : traced A := ([], c).

Definition t_try {A} (m : traced A) (h : exn -> traced A) : traced A :=
  match m with
  | (l, Abrupt e) => let '(l', r) := h e in ((l ++ l')%list, r)
  | _ => m
  end.

Lemma t_bind_normal {A B} (l : list E) (a : A) (f : A -> traced B) :
  t_bind f (l, Normal a) = ((l ++ (f a).1)%list, (f a).2).
Proof. simpl. by destruct (f a). Qed.
End Traced.
Arguments traced : clear implicits.

#[export] Instance traced_ret E : MRet (traced E) := fun A a => ([], Normal a).
#[export] Instance traced_bind E : MBind (traced E) := @t_bind E.
#[export] Instance traced_throw E : MThrow exn (traced E) := fun A e => ([], Abrupt e).

(** ** Objects *)

(** The last binding of [k] wins, as [JSON.parse] keeps the last duplicate. *)
Fixpoint obj_lookup (k : string) (l : list (string * json)) : option json :=
  match l with
  | [] => None
  | (k', v) :: l' =>
      match obj_lookup k l' with
      | Some w => Some w
      | None => if decide (k = k') then Some v else None
      end
  end.

Definition get_prop (v : option json) (k : string) : completion (option json) :=
  match v with
  | None => Abrupt (TypeError ("Cannot read properties of undefined (reading '" ++ k ++ "')"))
  | Some JNull => Abrupt (TypeError ("Cannot read properties of null (reading '" ++ k ++ "')"))
  | Some (JObj l) => Normal (obj_lookup k l)
  | Some _ => Normal None
  end.

(** An object literal as it reaches the other side of [JSON.stringify]. *)
Definition mk_obj (l : list (string * option json)) : json :=
  JObj (omap (fun '(k, v) => pair k <$> v) l).

(** ** [s.split(c)] and [a[i]] *)

Fixpoint split_char (c : ascii) (s : string) : list string :=
  match s with
  | EmptyString => [EmptyString]
  | String a s' =>
      let rest := split_char c s' in
      if decide (a = c) then EmptyString :: rest
      else match rest with
           | h :: t => String a h :: t
           | [] => [String a EmptyString]
           end
  end.

Definition js_index {A} (l : list A) (i : nat) : option A := l !! i.

(** [a.find(f)]: the first element on which [f] is truthy. *)
Fixpoint js_find {A} (f : A -> bool) (l : list A) : option A :=
  match l with
  | [] => None
  | x :: l' => if f x then Some x else js_find f l'
  end.

(** ** Lemmas *)

Lemma truthy_str s : truthy (Some (JStr s)) = true <-> s <> EmptyString.
Proof.
  simpl. destruct (String.eqb_spec s EmptyString); simpl; split; congruence.
Qed.

Lemma truthy_str_nonempty a s : truthy (Some (JStr (String a s))) = true.
Proof. done. Qed.

Lemma js_or_truthy a b : truthy a = true -> js_or a b = a.
Proof. unfold js_or. by intros ->. Qed.

Lemma js_or_falsy a b : truthy a = false -> js_or a b = b.
Proof. unfold js_or. by intros ->. Qed.

Lemma split_char_no_sep c s : str_mem c s = false -> split_char c s = [s].
Proof.
  induction s as [|a s IH]; simpl; [done|].
  intros [Ha Hs]%orb_false_elim. rewrite IH by done.
  rewrite decide_False; [done|]. intros ->. by rewrite bool_decide_eq_true_2 in Ha.
Qed.

Lemma split_char_app c s1 s2 :
  str_mem c s1 = false ->
  split_char c (s1 ++ String c s2) = s1 :: split_char c s2.
Proof.
  induction s1 as [|a s1 IH]; rewrite ?str_app_nil, ?str_app_cons; simpl.
  - by rewrite decide_True.
  - intros [Ha Hs]%orb_false_elim. rewrite IH by done.
    rewrite decide_False; [done|]. intros ->. by rewrite bool_decide_eq_true_2 in Ha.
Qed.

Lemma split_char_nonempty c s : split_char c s <> [].
Proof. destruct s; simpl; [done|]. case_decide; [done|]. by case_match. Qed.

#[export] Hint Resolve truthy_str_nonempty split_char_nonempty : sty.
#[export] Hint Rewrite js_or_truthy js_or_falsy split_char_app split_char_no_sep
  using (simpl; done) : sty_rw.
