(* ===== verification/Prepare.v ===== *)
(** * Client-side image preparation, [src/lib/utils.ts] lines 1-72

    [validateFile] checks the type against [SUPPORTED_TYPES] and then the
    size against [MAX_FILE_SIZE]; [resizeAndConvertToBase64] reads the
    file, decodes it, scales it so that its longer side is at most
    [MAX_DIMENSION], draws it on a canvas and encodes the canvas as a data
    URL whose part after the comma is the base64 payload.

    The resize is modelled as the source writes it, with exact rationals
    for the JavaScript doubles: [resize_dims] takes [Math.min] of the two
    ratios and rounds each product with [Math.round] ([Qfloor (x + 1/2)]).
    [resize_dims_Z] is its integer closed form, proved equal to it for
    every decoded size; the bounds are proved on the closed form.  Decoded
    images have positive dimensions ([positive]); the canvas may have a
    zero side.

    The browser's part is modelled from the HTML specification: the
    canvas's [toDataURL] ([data:,] for a canvas with a zero side, the
    requested type when the browser can encode it, PNG otherwise) and the
    base64 encoding of RFC 4648.  The pixels and the image codec are
    parameters ([Section Browser]).

    The uploader's [processFile] ([src/components/ImageUploader.tsx]) is
    split at its [await]: [processFile_start] validates and marks the
    uploader busy, [processFile_finish] hands the prepared image to the
    page or records the generic failure message.  The other handlers of
    the uploader are functions of its state [Uploader] ([isDragging],
    [error], [isProcessing]): [handleDragEnter], [handleDragLeave],
    [handleDrop] and [handleFileChange] (which start [processFile] on the
    first file, [process_first]) and [handleClick] (whether the file
    dialog opens).  The file ends with a concrete codec on which the
    preparation theorems are exercised. *)

From Stdlib Require Import QArith Qminmax Qround.
From S2P Require Import Prelude Js.

Module Prepare.

(** ** Validation, lines 1-20 *)

Definition SUPPORTED_TYPES : list string := ["image/jpeg"; "image/png"; "image/webp"].
Definition MAX_FILE_SIZE : N := 10 * 1024 * 1024.
Definition MAX_DIMENSION : positive := 1024.

Definition MSG_UNSUPPORTED : string :=
  "지원하지 않는 파일 형식입니다. JPG, PNG, WEBP 파일만 업로드해주세요.".
Definition MSG_TOO_LARGE : string :=
  "파일 크기가 10MB를 초과합니다. 더 작은 파일을 선택해주세요.".

(** The [File] object of the browser: its name, MIME type and byte size. *)
Record File := { file_name : string; file_type : string; file_size : N }.

Definition validateFile (file : File) : option string :=
  if negb (bool_decide (file_type file ∈ SUPPORTED_TYPES)) then Some MSG_UNSUPPORTED
  else if (MAX_FILE_SIZE <? file_size file)%N then Some MSG_TOO_LARGE
  else None.

(** ** Resizing, lines 35-42 *)

(** [Math.round]: the nearest integer, halves rounded up. *)
Definition js_round (x : Q) : Z := Qfloor (x + (1 # 2))%Q.

Definition Qpos (p : positive) : Q := inject_Z (Zpos p).

(** [let { width, height } = img; if (width > MAX_DIMENSION || height >
    MAX_DIMENSION) { const ratio = Math.min(MAX_DIMENSION / width,
    MAX_DIMENSION / height); width = Math.round(width * ratio); height =
    Math.round(height * ratio); }] *)
Definition resize_dims (width height : positive) : N * N :=
  if (MAX_DIMENSION <? width)%positive || (MAX_DIMENSION <? height)%positive then
    let ratio := Qmin (Qpos MAX_DIMENSION / Qpos width) (Qpos MAX_DIMENSION / Qpos height) in
    (Z.to_N (js_round (Qpos width * ratio)), Z.to_N (js_round (Qpos height * ratio)))
  else (Npos width, Npos height).

(** The closed form: with [M] the longer side, each side [s] becomes
    [round (s * 1024 / M) = (2048 s + M) / (2 M)]. *)
Definition resize_dims_Z (width height : positive) : N * N :=
  let M := Pos.max width height in
  if (1024 <? M)%positive then
    (((2048 * Npos width + Npos M) / (2 * Npos M))%N,
     ((2048 * Npos height + Npos M) / (2 * Npos M))%N)
  else (Npos width, Npos height).

(** ** Equivalence of the two *)

Lemma js_round_frac (a : Z) (d : positive) : js_round (a # d) = ((2 * a + Zpos d) / (2 * Zpos d))%Z.
Proof.
  unfold js_round, Qfloor, Qplus. simpl. f_equal; lia.
Qed.

Lemma Qmin_ratio (w h : positive) :
  Qmin (Qpos MAX_DIMENSION / Qpos w) (Qpos MAX_DIMENSION / Qpos h) = (1024 # Pos.max w h).
Proof.
  unfold Qmin, GenericMinMax.gmin, Qcompare, Qpos, Qdiv, Qmult, Qinv, MAX_DIMENSION. simpl.
  destruct (Pos.compare_spec (1024 * 1 * (1 * h)) (1024 * 1 * (1 * w)));
    f_equal; lia.
Qed.

(** Resizing the literal way equals the closed form for every decoded
    size. *)
Lemma resize_dims_eq (w h : positive) : resize_dims w h = resize_dims_Z w h.
Proof.
  unfold resize_dims, resize_dims_Z. rewrite Qmin_ratio.
  replace ((MAX_DIMENSION <? w)%positive || (MAX_DIMENSION <? h)%positive)
    with (1024 <? Pos.max w h)%positive.
  2: { unfold MAX_DIMENSION. destruct (Pos.ltb_spec 1024 (Pos.max w h)),
         (Pos.ltb_spec 1024 w), (Pos.ltb_spec 1024 h); simpl; lia. }
  destruct (1024 <? Pos.max w h)%positive; [|done].
  unfold Qpos, inject_Z, Qmult. simpl. rewrite !js_round_frac.
  f_equal; apply N2Z.inj; rewrite N2Z.inj_div, Z2N.id by (apply Z.div_pos; lia);
    f_equal; lia.
Qed.

(** [s'] is the nearest integer to [s * 1024 / M] (halves up). *)
Definition rounds_to (M s s' : N) : Prop :=
  (2 * M * s' <= 2048 * s + M < 2 * M * (s' + 1))%N.

Lemma N_div_bounds (a b : N) : b <> 0%N -> (b * (a / b) <= a < b * (a / b + 1))%N.
Proof.
  intros Hb. pose proof (N.div_mod a b Hb). pose proof (N.mod_lt a b Hb).
  generalize dependent (a / b)%N. generalize dependent (a mod b)%N. intros. nia.
Qed.

Lemma rounds_to_div (M s : N) : M <> 0%N -> rounds_to M s ((2048 * s + M) / (2 * M)).
Proof.
  intros HM. unfold rounds_to. pose proof (N_div_bounds (2048 * s + M) (2 * M)) as H.
  generalize dependent ((2048 * s + M) / (2 * M))%N. intros. lia.
Qed.

Lemma long_side (M : positive) : ((2048 * Npos M + Npos M) / (2 * Npos M))%N = 1024%N.
Proof. symmetry. apply (N.div_unique _ _ _ (Npos M)); lia. Qed.

Lemma short_side_le (M s : positive) :
  (s <= M)%positive -> ((2048 * Npos s + Npos M) / (2 * Npos M) <= 1024)%N.
Proof.
  intros Hs. pose proof (rounds_to_div (Npos M) (Npos s)) as H. unfold rounds_to in H.
  generalize dependent ((2048 * Npos s + Npos M) / (2 * Npos M))%N. intros. nia.
Qed.

(** C8: resizing never enlarges an image that fits, and scales one that
    does not so that its longer side is exactly 1024 pixels, each side
    being the nearest integer to its original length times 1024 over the
    longer side (the aspect ratio kept within half a pixel). *)
Theorem resize_dims_spec (w h : positive) :
  let '(w', h') := resize_dims w h in
  if (Pos.max w h <=? 1024)%positive then w' = Npos w /\ h' = Npos h
  else N.max w' h' = 1024%N /\ rounds_to (Npos (Pos.max w h)) (Npos w) w' /\
       rounds_to (Npos (Pos.max w h)) (Npos h) h'.
Proof.
  rewrite resize_dims_eq. unfold resize_dims_Z.
  destruct (Pos.leb_spec (Pos.max w h) 1024) as [Hle|Hgt].
  - rewrite (proj2 (Pos.ltb_ge _ _) Hle). done.
  - rewrite (proj2 (Pos.ltb_lt _ _) Hgt).
    split; [|split; apply rounds_to_div; lia].
    destruct (Pos.max_spec w h) as [[Hwh ->]|[Hwh ->]].
    + rewrite long_side. pose proof (short_side_le h w). lia.
    + rewrite long_side. pose proof (short_side_le w h). lia.
Qed.

(** A zero height is the collapse of a side below half a pixel. *)
Lemma resize_dims_zero_iff (w h : positive) :
  (resize_dims w h).2 = 0%N <-> (2048 * Npos h < Npos w)%N.
Proof.
  rewrite resize_dims_eq. unfold resize_dims_Z.
  destruct (Pos.ltb_spec 1024 (Pos.max w h)) as [Hgt|Hle]; simpl; [|lia].
  rewrite N.div_small_iff by lia. lia.
Qed.

(** C22: the canvas gets a zero height exactly when the image is more
    than 2048 times wider than tall (and symmetrically a zero width):
    [Math.round] of a side below half a pixel is 0. *)
Theorem resize_dims_zero (w h : positive) :
  (resize_dims w h).2 = 0%N <-> (2048 * Npos h < Npos w)%N.
Proof. apply resize_dims_zero_iff. Qed.

(** ** Base64 (RFC 4648), as [toDataURL] encodes *)

Definition b64_alphabet : string :=
  "ABCDEFGHIJKLMNOPQRSTUVWXYZabcdefghijklmnopqrstuvwxyz0123456789+/".

Definition b64_char (n : N) : ascii :=
  match String.get (N.to_nat n) b64_alphabet with Some c => c | None => "="%char end.

Definition pad : ascii := "="%char.

Fixpoint base64_encode (bs : list Byte.byte) : string :=
  match bs with
  | b1 :: b2 :: b3 :: rest =>
      let n := (Byte.to_N b1 * 65536 + Byte.to_N b2 * 256 + Byte.to_N b3)%N in
      String (b64_char (n / 262144)) (String (b64_char (n / 4096 mod 64))
        (String (b64_char (n / 64 mod 64)) (String (b64_char (n mod 64)) (base64_encode rest))))
  | [b1; b2] =>
      let n := (Byte.to_N b1 * 65536 + Byte.to_N b2 * 256)%N in
      String (b64_char (n / 262144)) (String (b64_char (n / 4096 mod 64))
        (String (b64_char (n / 64 mod 64)) (String pad EmptyString)))
  | [b1] =>
      let n := (Byte.to_N b1 * 65536)%N in
      String (b64_char (n / 262144)) (String (b64_char (n / 4096 mod 64))
        (String pad (String pad EmptyString)))
  | [] => EmptyString
  end.

Definition b64_ok (c : ascii) : bool := str_mem c b64_alphabet || bool_decide (c = pad).

Lemma b64_char_ok n : b64_ok (b64_char n) = true.
Proof.
  unfold b64_ok, b64_char. destruct (String.get _ _) eqn:E.
  - by rewrite (get_str_mem _ _ _ E).
  - by rewrite orb_true_r.
Qed.

Lemma base64_encode_ok bs : str_forall b64_ok (base64_encode bs) = true.
Proof.
  induction bs as [bs IH] using (induction_ltof1 _ (@length _)).
  destruct bs as [|b1 [|b2 [|b3 rest]]]; simpl; rewrite ?b64_char_ok; try done.
  apply IH. unfold ltof. simpl. lia.
Qed.

(** The payload never holds the comma that ends the data URL's header. *)
Lemma base64_no_comma bs : str_mem ","%char (base64_encode bs) = false.
Proof. apply (str_forall_not_mem b64_ok); [reflexivity | apply base64_encode_ok]. Qed.

(** [dataUrl.split(",")] on a well-formed data URL. *)
Lemma data_url_split t payload :
  str_mem ","%char t = false -> str_mem ","%char payload = false ->
  split_char ","%char ("data:" ++ t ++ ";base64," ++ payload) = ["data:" ++ t ++ ";base64"; payload].
Proof.
  intros Ht Hp.
  replace ("data:" ++ t ++ ";base64," ++ payload)%string
    with (("data:" ++ t ++ ";base64") ++ String ","%char payload)%string
    by (by rewrite !str_app_assoc).
  rewrite split_char_app, split_char_no_sep; [done | done |].
  by rewrite !str_mem_app, Ht.
Qed.

Lemma supported_no_comma t : t ∈ SUPPORTED_TYPES -> str_mem ","%char t = false.
Proof. unfold SUPPORTED_TYPES. intros Ht. repeat (inversion Ht as [|? ? ? Ht']; subst; [done|]; clear Ht; rename Ht' into Ht). inversion Ht. Qed.

Lemma validateFile_None file :
  validateFile file = None <-> file_type file ∈ SUPPORTED_TYPES /\ (file_size file <= MAX_FILE_SIZE)%N.
Proof.
  unfold validateFile. case_bool_decide as Ht; simpl.
  - destruct (N.ltb_spec MAX_FILE_SIZE (file_size file)); split; intros; naive_solver lia.
  - split; [done | naive_solver].
Qed.

(** ** The canvas and the file reader of the browser *)

Section Browser.

(** Decoded pixels, [ctx.drawImage(img, 0, 0, width, height)] on a fresh
    canvas, the set of types the browser can encode, and its encoders. *)
Context {Bitmap : Type}.
Variable draw : Bitmap -> N -> N -> Bitmap.
Variable can_encode : string -> bool.
Variable encode : string -> Q -> Bitmap -> list Byte.byte.

Record Canvas := { cv_width : N; cv_height : N; cv_bitmap : Bitmap }.

(** [canvas.toDataURL(type, quality)] (HTML, 4.12.5.1): [data:,] for a
    canvas without pixels; PNG when the type cannot be encoded. *)
Definition toDataURL (c : Canvas) (type : string) (quality : Q) : string :=
  if (cv_width c =? 0)%N || (cv_height c =? 0)%N then "data:,"
  else
    let t := if can_encode type then type else "image/png" in
    "data:" ++ t ++ ";base64," ++ base64_encode (encode t quality (cv_bitmap c)).

(** What the reader and the image element report: [reader.onerror],
    [img.onerror], or [img.onload] with the natural size and pixels. *)
Inductive load_event :=
| ReaderError
| ImageError
| ImageLoaded (width height : positive) (pixels : Bitmap).

(** The value [resizeAndConvertToBase64] resolves with;
    [dataUrl.split(",")[1]] may be [undefined]. *)
Record Prepared := { p_base64 : option string; p_mimeType : string; p_preview : string }.

Definition MSG_READ_FAILED : string := "파일 읽기 실패".
Definition MSG_LOAD_FAILED : string := "이미지 로드 실패".
Definition MSG_CONTEXT_FAILED : string := "Canvas context 생성 실패".

(** [resizeAndConvertToBase64(file)], lines 26-72; [ctx_ok] is whether
    [canvas.getContext("2d")] returned a context. *)
Definition resizeAndConvertToBase64 (file : File) (ev : load_event) (ctx_ok : bool)
  : completion Prepared :=
  match ev with
  | ReaderError => mthrow (Error MSG_READ_FAILED)
  | ImageError => mthrow (Error MSG_LOAD_FAILED)
  | ImageLoaded w h px =>
      let '(width, height) := resize_dims w h in
      if negb ctx_ok then mthrow (Error MSG_CONTEXT_FAILED) else
      let canvas := {| cv_width := width; cv_height := height; cv_bitmap := draw px width height |} in
      let mimeType := file_type file in
      let dataUrl := toDataURL canvas mimeType (9 # 10) in
      let base64 := js_index (split_char ","%char dataUrl) 1 in
      mret {| p_base64 := base64; p_mimeType := mimeType; p_preview := dataUrl |}
  end.

Lemma toDataURL_ok c type q :
  cv_width c <> 0%N -> cv_height c <> 0%N ->
  toDataURL c type q =
  "data:" ++ (if can_encode type then type else "image/png") ++ ";base64," ++
  base64_encode (encode (if can_encode type then type else "image/png") q (cv_bitmap c)).
Proof.
  intros Hw Hh. unfold toDataURL. by rewrite (proj2 (N.eqb_neq _ _) Hw), (proj2 (N.eqb_neq _ _) Hh).
Qed.

(** The prepared [mimeType] is the file's type, whatever the outcome of
    the encoding. *)
Lemma prepare_mimeType file ev ctx_ok p :
  resizeAndConvertToBase64 file ev ctx_ok = Normal p -> p_mimeType p = file_type file.
Proof.
  unfold resizeAndConvertToBase64. destruct ev as [| |w h px]; try discriminate.
  destruct (resize_dims w h). destruct ctx_ok; simpl; [|discriminate]. by intros [= <-].
Qed.

(** C14: a validated file whose type the browser encodes, decoded at any
    size that does not collapse, is prepared into a preview that is the
    payload behind the [data:<type>;base64,] prefix, and the payload is
    the base64 of the encoded resized canvas, so both decode to the same
    image. *)
Theorem prepare_data_url file w h px :
  validateFile file = None -> can_encode (file_type file) = true ->
  (resize_dims w h).1 <> 0%N -> (resize_dims w h).2 <> 0%N ->
  let payload := base64_encode (encode (file_type file) (9 # 10)
                   (draw px (resize_dims w h).1 (resize_dims w h).2)) in
  resizeAndConvertToBase64 file (ImageLoaded w h px) true =
  Normal {| p_base64 := Some payload; p_mimeType := file_type file;
            p_preview := "data:" ++ file_type file ++ ";base64," ++ payload |}.
Proof.
  intros Hv Henc Hw Hh. apply validateFile_None in Hv as [Ht _].
  unfold resizeAndConvertToBase64. destruct (resize_dims w h) as [w' h']. simpl in *.
  rewrite toDataURL_ok by done. rewrite Henc. unfold js_index.
  rewrite data_url_split; [done | by apply supported_no_comma | apply base64_no_comma].
Qed.

(** The preparation of a collapsed image. *)
Lemma prepare_degenerate_eq file w h px :
  (2048 * Npos h < Npos w)%N ->
  resizeAndConvertToBase64 file (ImageLoaded w h px) true =
  Normal {| p_base64 := Some EmptyString; p_mimeType := file_type file; p_preview := "data:," |}.
Proof.
  intros Hlt. apply resize_dims_zero_iff in Hlt.
  unfold resizeAndConvertToBase64. destruct (resize_dims w h) as [w' h']. simpl in *.
  subst h'. unfold toDataURL. simpl. by rewrite orb_true_r.
Qed.

(** C23: an image more than 2048 times wider than tall is drawn on a
    canvas of height 0, whose data URL is [data:,]: the prepared payload is
    the empty string, which the endpoint later rejects as a missing
    parameter. *)
Theorem prepare_degenerate file w h px :
  (2048 * Npos h < Npos w)%N ->
  resizeAndConvertToBase64 file (ImageLoaded w h px) true =
  Normal {| p_base64 := Some EmptyString; p_mimeType := file_type file; p_preview := "data:," |}.
Proof. apply prepare_degenerate_eq. Qed.

(** C34: when the browser cannot encode the file's type (WebP in some
    browsers) the data URL holds PNG, yet the prepared [mimeType] is still
    the file's type, and it is this type that is sent with the payload. *)
Theorem prepare_type_fallback file w h px :
  can_encode (file_type file) = false ->
  (resize_dims w h).1 <> 0%N -> (resize_dims w h).2 <> 0%N ->
  exists payload,
    resizeAndConvertToBase64 file (ImageLoaded w h px) true =
    Normal {| p_base64 := Some payload; p_mimeType := file_type file;
              p_preview := "data:image/png;base64," ++ payload |}.
Proof.
  intros Henc Hw Hh. unfold resizeAndConvertToBase64. destruct (resize_dims w h) as [w' h'].
  simpl in *. rewrite toDataURL_ok by done. rewrite Henc. unfold js_index.
  rewrite (data_url_split "image/png"); [by eexists | done | apply base64_no_comma].
Qed.

End Browser.

(** ** The uploader, [src/components/ImageUploader.tsx] lines 26-51 *)

Definition MSG_PROCESSING_FAILED : string :=
  "이미지 처리 중 오류가 발생했습니다. 다시 시도해주세요.".

(** [UploadedImage], [src/types/index.ts] lines 32-37; [base64] is what
    [split(",")[1]] gave, possibly [undefined]. *)
Record UploadedImage := {
  file : File;
  preview : string;
  base64 : option string;
  mimeType : string
}.

(** The uploader's own state, lines 20-22: [isDragging], [error] and
    [isProcessing]. *)
Record Uploader := { u_isDragging : bool; u_error : option string; u_isProcessing : bool }.

Definition uploader_init : Uploader :=
  {| u_isDragging := false; u_error := None; u_isProcessing := false |}.

(** [processFile(file)] up to its [await]: [setError(null)], validation
    (which sets the message and returns), [setIsProcessing(true)].  The
    boolean says whether [resizeAndConvertToBase64] was started. *)
Definition processFile_start (u : Uploader) (file : File) : Uploader * bool :=
  match validateFile file with
  | Some msg =>
      ({| u_isDragging := u_isDragging u; u_error := Some msg; u_isProcessing := u_isProcessing u |},
       false)
  | None => ({| u_isDragging := u_isDragging u; u_error := None; u_isProcessing := true |}, true)
  end.

(** The rest of [processFile] once the promise settles: [onImageUpload]
    with the four fields on success, the generic message on failure, and
    [setIsProcessing(false)] in [finally]. *)
Definition processFile_finish (u : Uploader) (file : File) (r : completion Prepared)
  : Uploader * option UploadedImage :=
  match r with
  | Normal p =>
      ({| u_isDragging := u_isDragging u; u_error := u_error u; u_isProcessing := false |},
       Some {| file := file; preview := p_preview p; base64 := p_base64 p;
               mimeType := p_mimeType p |})
  | Abrupt _ =>
      ({| u_isDragging := u_isDragging u; u_error := Some MSG_PROCESSING_FAILED;
          u_isProcessing := false |}, None)
  end.

(** [handleDragEnter], lines 54-58, and [handleDragLeave], lines 60-64;
    [handleDragOver], lines 66-69, changes no state. *)
Definition handleDragEnter (u : Uploader) : Uploader :=
  {| u_isDragging := true; u_error := u_error u; u_isProcessing := u_isProcessing u |}.

Definition handleDragLeave (u : Uploader) : Uploader :=
  {| u_isDragging := false; u_error := u_error u; u_isProcessing := u_isProcessing u |}.

(** [processFile(files[0])] when the list is not empty: the file whose
    preparation was started, if any. *)
Definition process_first (u : Uploader) (files : list File) : Uploader * option File :=
  match files with
  | [] => (u, None)
  | f :: _ => let '(u', started) := processFile_start u f in (u', if started then Some f else None)
  end.

(** [handleDrop], lines 71-84: the highlight is cleared, then nothing
    happens when [disabled]. *)
Definition handleDrop (u : Uploader) (disabled : bool) (files : list File) : Uploader * option File :=
  let u1 := handleDragLeave u in
  if disabled then (u1, None) else process_first u1 files.

(** [handleFileChange], lines 86-96: no [disabled] check. *)
Definition handleFileChange (u : Uploader) (files : list File) : Uploader * option File :=
  process_first u files.

(** [handleClick], lines 98-102: whether the file dialog opens. *)
Definition handleClick (disabled : bool) : bool := negb disabled.

(** [process_first] starts a preparation only for a validated file, and
    marks the uploader busy exactly when it does. *)
Lemma process_first_spec u files :
  match process_first u files with
  | (u', Some f) => validateFile f = None /\ u_isProcessing u' = true
  | (u', None) => u_isProcessing u' = u_isProcessing u
  end.
Proof.
  destruct files as [|f fs]; simpl; [done|]. unfold processFile_start.
  destruct (validateFile f) eqn:E; simpl; auto.
Qed.

Lemma handleDrop_spec u disabled files :
  match handleDrop u disabled files with
  | (u', Some f) => validateFile f = None /\ u_isProcessing u' = true
  | (u', None) => u_isProcessing u' = u_isProcessing u
  end.
Proof.
  unfold handleDrop. destruct disabled; [done|].
  pose proof (process_first_spec (handleDragLeave u) files).
  by destruct (process_first _ _) as [? []].
Qed.

(** C9: a file passes validation exactly when its type is one of JPEG,
    PNG and WebP and its size is at most 10 MiB; an unsupported type is
    reported as such whatever its size, and a file that fails validation
    starts no preparation. *)
Theorem validateFile_spec u file :
  (validateFile file = None <->
     file_type file ∈ SUPPORTED_TYPES /\ (file_size file <= MAX_FILE_SIZE)%N) /\
  (file_type file ∉ SUPPORTED_TYPES -> validateFile file = Some MSG_UNSUPPORTED) /\
  (processFile_start u file).2 = bool_decide (validateFile file = None).
Proof.
  split; [apply validateFile_None|]. split.
  - intros Ht. unfold validateFile. by rewrite bool_decide_eq_false_2.
  - unfold processFile_start. by destruct (validateFile file).
Qed.

(** ** Concrete runs

    A codec for the concrete runs: one-pixel bitmaps, WebP not encodable,
    every image encoding to the bytes of "ABC". *)
Definition pdraw (_ : unit) (_ _ : N) : unit := tt.
Definition pcan (t : string) : bool := negb (String.eqb t "image/webp").
Definition penc (_ : string) (_ : Q) (_ : unit) : list Byte.byte := [Byte.x41; Byte.x42; Byte.x43].

Definition jpeg_file : File := {| file_name := "a.jpg"; file_type := "image/jpeg"; file_size := 2000000 |}.
Definition webp_file : File := {| file_name := "a.webp"; file_type := "image/webp"; file_size := 2000000 |}.

Lemma prepare_data_url_witness :
  resizeAndConvertToBase64 pdraw pcan penc jpeg_file (ImageLoaded 2000 1000 tt) true =
  Normal {| p_base64 := Some "QUJD"; p_mimeType := "image/jpeg";
            p_preview := "data:image/jpeg;base64,QUJD" |}.
Proof.
  apply (prepare_data_url pdraw pcan penc jpeg_file 2000 1000 tt);
    [reflexivity | reflexivity | vm_compute; discriminate | vm_compute; discriminate].
Defined.

Lemma prepare_degenerate_witness :
  resizeAndConvertToBase64 pdraw pcan penc jpeg_file (ImageLoaded 3000 1 tt) true =
  Normal {| p_base64 := Some EmptyString; p_mimeType := "image/jpeg"; p_preview := "data:," |}.
Proof. apply (prepare_degenerate pdraw pcan penc jpeg_file 3000 1 tt). lia. Defined.

Lemma prepare_type_fallback_witness :
  exists payload,
    resizeAndConvertToBase64 pdraw pcan penc webp_file (ImageLoaded 800 600 tt) true =
    Normal {| p_base64 := Some payload; p_mimeType := "image/webp";
              p_preview := "data:image/png;base64," ++ payload |}.
Proof.
  apply (prepare_type_fallback pdraw pcan penc webp_file 800 600 tt);
    [reflexivity | vm_compute; discriminate | vm_compute; discriminate].
Defined.

Lemma validateFile_spec_witness :
  validateFile {| file_name := "a.gif"; file_type := "image/gif"; file_size := 20000000 |} =
  Some MSG_UNSUPPORTED.
Proof.
  apply (validateFile_spec uploader_init).
  intros H. repeat (apply elem_of_cons in H as [H|H]; [discriminate|]). by apply elem_of_nil in H.
Defined.

End Prepare.
