(* ===== verification/Proxy.v ===== *)
(** * The transform endpoint, [src/app/api/transform/route.ts]

    [POST] reads the API key ([getAI]), parses the JSON body, checks the
    three fields, composes the prompt, arms a 120-second timer that aborts
    an [AbortController], awaits the external model, clears the timer and
    normalises the model's reply into [{image, mimeType}] or [{error}].
    Thrown errors are caught twice: the inner [catch] turns an
    [AbortError] into a 504, the outer one turns anything into a 500.

    The handler is a computation of [traced effect response] (see [Js.v]):
    its log records, in order, the timer operations, the call to the
    model, the abort and the [console.error].  The model is an oracle
    [upstream] from the request it receives to its reply, which carries the
    reply's latency; the timer fires during the await exactly when the
    latency reaches [TIMEOUT_MS].

    The abstract contract [spec_transform] is written from the
    specification (section 4.3 and 6.1); [implements] relates a response to
    a contract result.  [src/lib/gemini.ts] repeats the base instruction
    and builds a client of its own ([gemini_ai]) that no module imports. *)

From S2P Require Import Prelude Js.

Module Proxy.

(** ** Constants *)

(** [BASE_INSTRUCTION], route.ts lines 14-15. *)
Definition BASE_INSTRUCTION : string :=
  "IMPORTANT: Preserve the original photo's composition, subject positions, facial features, and overall layout exactly. Only change the artistic style and visual rendering technique.".

(** The same constant in [src/lib/gemini.ts], lines 8-9. *)
Definition GEMINI_BASE_INSTRUCTION : string :=
  "IMPORTANT: Preserve the original photo's composition, subject positions, facial features, and overall layout exactly. Only change the artistic style and visual rendering technique.".

Definition TIMEOUT_MS : N := 120000.
Definition MODEL : string := "nano-banana-pro-preview".

(** A line feed, written [\n] in the source. *)
Definition LF : string := String (ascii_of_nat 10) EmptyString.

Definition MSG_NO_KEY : string := "GEMINI_API_KEY 환경변수가 설정되지 않았습니다.".
Definition MSG_MISSING : string := "필수 파라미터가 누락되었습니다.".
Definition MSG_NO_CONTENT : string := "AI 응답에서 콘텐츠를 찾을 수 없습니다.".
Definition MSG_TEXT_ONLY : string := "이미지 생성에 실패했습니다. AI 응답: ".
Definition MSG_NO_ANSWER : string := "응답 없음".
Definition MSG_TIMEOUT : string := "요청 시간이 초과되었습니다. 다시 시도해주세요.".
Definition MSG_UNKNOWN : string := "알 수 없는 오류가 발생했습니다.".

(** ** The external model's interface ([@google/genai]) *)

Record blob := { blob_mimeType : option string; blob_data : option string }.
Record part := { part_text : option string; part_inlineData : option blob }.
Record content := { content_parts : option (list part) }.
Record candidate := { cand_content : option content }.
Record gen_response := { candidates : option (list candidate) }.

(** The argument of [ai.models.generateContent]: the model name, the text
    part, the inline image part (the request's raw values) and the
    response modalities. *)
Record gen_request := {
  gr_model : string;
  gr_text : string;
  gr_mimeType : option json;
  gr_data : option json;
  gr_modalities : list string
}.

Record upstream_reply := { latency_ms : N; outcome : completion gen_response }.
Definition upstream := gen_request -> upstream_reply.

(** ** The server side *)

Record env := { GEMINI_API_KEY : option string }.

(** The request as the handler sees it: the result of [await req.json()]. *)
Record request := { req_json : completion json }.

Record response := { status : N; body : json }.

(** [NextResponse.json(fields, { status })] *)
Definition json_response (st : N) (fields : list (string * option json)) : response :=
  {| status := st; body := mk_obj fields |}.

Definition error_response (st : N) (msg : string) : response :=
  json_response st [("error", Some (JStr msg))].

Inductive effect :=
| SetTimeout (ms : N)              (** [setTimeout(() => controller.abort(), 120000)] *)
| CallModel (rq : gen_request)     (** [ai.models.generateContent(...)] *)
| AbortSignal                      (** the timer fires: [controller.abort()] *)
| ClearTimeout                     (** [clearTimeout(timeoutId)] *)
| ConsoleError (e : exn).          (** [console.error("Transform API Error:", error)] *)

(** [getAI], route.ts lines 5-11; the client is identified with its key. *)
Definition getAI (e : env) : completion string :=
  match GEMINI_API_KEY e with
  | Some k => if truthy (Some (JStr k)) then mret k else mthrow (Error MSG_NO_KEY)
  | None => mthrow (Error MSG_NO_KEY)
  end.

(** The default export of [src/lib/gemini.ts], line 5: the client built
    when the module is loaded, identified with its key as [getAI]'s is.
    The [!] of [process.env.GEMINI_API_KEY!] is a type assertion without
    run-time effect: no check is made. *)
Definition gemini_ai (e : env) : option string := GEMINI_API_KEY e.

(** [const { imageBase64, mimeType, stylePrompt } = await req.json()],
    line 20. *)
Definition read_body (rq : request) : completion (option json * option json * option json) :=
  v ← req_json rq;
  imageBase64 ← get_prop (Some v) "imageBase64";
  mimeType ← get_prop (Some v) "mimeType";
  stylePrompt ← get_prop (Some v) "stylePrompt";
  mret (imageBase64, mimeType, stylePrompt).

(** [`${BASE_INSTRUCTION}\n\n${stylePrompt}`], line 31. *)
Definition fullPrompt (stylePrompt : option json) : string :=
  BASE_INSTRUCTION ++ LF ++ LF ++ to_template stylePrompt.

(** The argument object of [generateContent], lines 38-52. *)
Definition model_request (imageBase64 mimeType stylePrompt : option json) : gen_request :=
  {| gr_model := MODEL;
     gr_text := fullPrompt stylePrompt;
     gr_mimeType := mimeType;
     gr_data := imageBase64;
     gr_modalities := ["TEXT"; "IMAGE"] |}.

(** [await ai.models.generateContent(...)].  While the call is pending the
    timer may fire and run [controller.abort()]; the controller's signal is
    not passed to the call, so the reply is the oracle's whatever the
    latency. *)
Definition await_generateContent (up : upstream) (gr : gen_request)
  : traced effect gen_response :=
  let r := up gr in
  (CallModel gr :: (if (TIMEOUT_MS <=? latency_ms r)%N then [AbortSignal] else []),
   outcome r).

(** [response?.candidates?.[0]?.content?.parts], line 57. *)
Definition response_parts (r : gen_response) : option (list part) :=
  cs ← candidates r; c ← cs !! 0; ct ← cand_content c; content_parts ct.

(** The [for (const part of parts)] loop, lines 65-72: the first part whose
    [inlineData] is set. *)
Fixpoint first_inline (parts : list part) : option blob :=
  match parts with
  | [] => None
  | p :: ps =>
      match part_inlineData p with
      | Some b => Some b
      | None => first_inline ps
      end
  end.

(** [parts.find((p) => p.text)], line 75. *)
Definition find_text (parts : list part) : option part :=
  js_find (fun p => truthy (JStr <$> part_text p)) parts.

(** Lines 57-81: the reply turned into the response. *)
Definition normalize (r : gen_response) : response :=
  match response_parts r with
  | None => error_response 500 MSG_NO_CONTENT
  | Some parts =>
      match first_inline parts with
      | Some b =>
          json_response 200 [("image", JStr <$> blob_data b);
                             ("mimeType", JStr <$> blob_mimeType b)]
      | None =>
          let textPart := find_text parts in
          error_response 500
            (MSG_TEXT_ONLY ++
             to_template (js_or (textPart ≫= fun p => JStr <$> part_text p)
                                (Some (JStr MSG_NO_ANSWER))))
      end
  end.

(** [apiError instanceof Error && apiError.name === "AbortError"] *)
Definition is_abort_error (e : exn) : bool :=
  match e with
  | ErrorObj name _ => bool_decide (name = "AbortError")
  | ThrownValue _ => false
  end.

(** Lines 33-91: arm the timer, call the model, clear the timer, and the
    inner [catch]. *)
Definition call_model (up : upstream) (gr : gen_request) : traced effect response :=
  _ ← emit (SetTimeout TIMEOUT_MS);
  t_try (r ← await_generateContent up gr;
         _ ← emit ClearTimeout;
         mret (normalize r))
        (fun apiError =>
           _ ← emit ClearTimeout;
           if is_abort_error apiError then mret (error_response 504 MSG_TIMEOUT)
           else mthrow apiError).

(** [POST], lines 17-98. *)
Definition POST (e : env) (up : upstream) (rq : request) : traced effect response :=
  t_try
    (_ ← lift (getAI e);
     '(imageBase64, mimeType, stylePrompt) ← lift (read_body rq);
     if negb (truthy imageBase64) || negb (truthy mimeType) || negb (truthy stylePrompt)
     then mret (error_response 400 MSG_MISSING)
     else call_model up (model_request imageBase64 mimeType stylePrompt))
    (fun error =>
       _ ← emit (ConsoleError error);
       mret (error_response 500 (message_or error MSG_UNKNOWN))).

(** The response the client receives.  [POST] never throws (proved
    below), so the [Abrupt] branch, which Next.js would answer
    with its own error page, is never taken. *)
Definition POST_response (e : env) (up : upstream) (rq : request) : response :=
  match (POST e up rq).2 with
  | Normal r => r
  | Abrupt _ => error_response 500 MSG_UNKNOWN
  end.

(** The body the client sends, [JSON.stringify({ imageBase64, mimeType,
    stylePrompt })] with string fields ([TransformRequest] of
    [src/types/index.ts], built in [src/app/page.tsx] lines 52-56). *)
Definition client_body (imageBase64 mimeType stylePrompt : string) : json :=
  mk_obj [("imageBase64", Some (JStr imageBase64));
          ("mimeType", Some (JStr mimeType));
          ("stylePrompt", Some (JStr stylePrompt))].

Definition client_request (imageBase64 mimeType stylePrompt : string) : request :=
  {| req_json := Normal (client_body imageBase64 mimeType stylePrompt) |}.

(** ** The contract of the specification (section 4.3) *)

Inductive spec_error :=
| MissingParam
| UpstreamTimeout
| UpstreamEmpty
| UpstreamTextOnly (text : string)
| UpstreamError (msg : string).

Inductive spec_result :=
| ImageArtifact (imageBytes mimeType : string)
| Fails (e : spec_error).

Definition spec_status (e : spec_error) : N :=
  match e with
  | MissingParam => 400
  | UpstreamTimeout => 504
  | _ => 500
  end.

(** "base instruction + newline separator + styleInstruction" *)
Definition spec_prompt (instr : string) : string := BASE_INSTRUCTION ++ LF ++ instr.

Definition spec_request (image mime instr : string) : gen_request :=
  {| gr_model := MODEL; gr_text := spec_prompt instr;
     gr_mimeType := Some (JStr mime); gr_data := Some (JStr image);
     gr_modalities := ["TEXT"; "IMAGE"] |}.

(** "the first one carrying inline binary image data" *)
Fixpoint spec_first_image (ps : list part) : option (string * string) :=
  match ps with
  | [] => None
  | p :: ps' =>
      match part_inlineData p with
      | Some {| blob_mimeType := Some m; blob_data := Some d |} => Some (d, m)
      | _ => spec_first_image ps'
      end
  end.

(** "the first part carrying text" *)
Fixpoint spec_first_text (ps : list part) : option string :=
  match ps with
  | [] => None
  | p :: ps' =>
      match part_text p with
      | Some (String a t) => Some (String a t)
      | _ => spec_first_text ps'
      end
  end.

Definition spec_normalize (r : upstream_reply) : spec_result :=
  if (TIMEOUT_MS <=? latency_ms r)%N then Fails UpstreamTimeout else
  match outcome r with
  | Abrupt (ErrorObj _ (String a m)) => Fails (UpstreamError (String a m))
  | Abrupt _ => Fails (UpstreamError MSG_UNKNOWN)
  | Normal g =>
      match response_parts g with
      | None => Fails UpstreamEmpty
      | Some ps =>
          match spec_first_image ps with
          | Some (d, m) => ImageArtifact d m
          | None => Fails (UpstreamTextOnly (default MSG_NO_ANSWER (spec_first_text ps)))
          end
      end
  end.

Definition spec_transform (up : upstream) (image mime instr : string) : spec_result :=
  if decide (image = EmptyString \/ mime = EmptyString \/ instr = EmptyString)
  then Fails MissingParam
  else spec_normalize (up (spec_request image mime instr)).

(** A response implements a contract result: same status, the image and
    its type on success, a non-empty error message otherwise, which embeds
    the model's text or the upstream's message where the contract says so. *)
Definition implements (r : response) (s : spec_result) : Prop :=
  match s with
  | ImageArtifact d m => r = json_response 200 [("image", Some (JStr d)); ("mimeType", Some (JStr m))]
  | Fails e =>
      status r = spec_status e /\
      exists msg, msg <> EmptyString /\ body r = mk_obj [("error", Some (JStr msg))] /\
        match e with
        | UpstreamTextOnly t => msg = MSG_TEXT_ONLY ++ t
        | UpstreamError m => msg = m
        | _ => True
        end
  end.

(** The replies the contract describes: within the timeout, an upstream
    exception that is not an abort and carries a message, and inline parts
    that carry both data and a type. *)
Definition inline_complete (p : part) : Prop :=
  match part_inlineData p with
  | Some b => is_Some (blob_data b) /\ is_Some (blob_mimeType b)
  | None => True
  end.

Definition well_behaved (r : upstream_reply) : Prop :=
  (latency_ms r < TIMEOUT_MS)%N /\
  match outcome r with
  | Abrupt (ErrorObj name m) => name <> "AbortError" /\ m <> EmptyString
  | Abrupt (ThrownValue _) => True
  | Normal g => forall ps, response_parts g = Some ps -> Forall inline_complete ps
  end.

(** ** Characterisation of the handler *)

(** The effects of the await: the call, then the abort when the timer
    fires first. *)
Definition timer_fired (r : upstream_reply) : list effect :=
  if (TIMEOUT_MS <=? latency_ms r)%N then [AbortSignal] else [].

(** The value of the inner [try]/[catch]. *)
Definition inner_result (o : completion gen_response) : completion response :=
  match o with
  | Normal g => Normal (normalize g)
  | Abrupt e => if is_abort_error e then Normal (error_response 504 MSG_TIMEOUT) else Abrupt e
  end.

Lemma call_model_eq up gr :
  call_model up gr =
  (SetTimeout TIMEOUT_MS :: CallModel gr :: timer_fired (up gr) ++ [ClearTimeout],
   inner_result (outcome (up gr))).
Proof.
  unfold call_model, timer_fired, inner_result. cbn.
  destruct (outcome (up gr)) as [g|err]; cbn; [done|].
  by destruct (is_abort_error err).
Qed.

(** The outer [catch]. *)
Definition outer_catch (l : list effect) (c : completion response) : traced effect response :=
  match c with
  | Normal r => (l, Normal r)
  | Abrupt err => ((l ++ [ConsoleError err])%list, Normal (error_response 500 (message_or err MSG_UNKNOWN)))
  end.

Definition missing (a b c : option json) : bool :=
  negb (truthy a) || negb (truthy b) || negb (truthy c).

Lemma POST_eq e up rq :
  POST e up rq =
  match getAI e, read_body rq with
  | Normal _, Normal (a, b, c) =>
      if missing a b c then ([], Normal (error_response 400 MSG_MISSING))
      else outer_catch
             (SetTimeout TIMEOUT_MS :: CallModel (model_request a b c) ::
                timer_fired (up (model_request a b c)) ++ [ClearTimeout])
             (inner_result (outcome (up (model_request a b c))))
  | Abrupt err, _ | Normal _, Abrupt err => outer_catch [] (Abrupt err)
  end.
Proof.
  unfold POST, missing. destruct (getAI e) as [k|err]; [|done].
  destruct (read_body rq) as [[[a b] c]|err]; [|done]. cbn -[call_model].
  destruct (_ || _); [done|]. rewrite call_model_eq. cbn.
  destruct (inner_result _); cbn; by rewrite ?app_nil_r.
Qed.

Lemma getAI_ok e k : GEMINI_API_KEY e = Some k -> k <> EmptyString -> getAI e = Normal k.
Proof. intros Hk Hne. unfold getAI. rewrite Hk. apply truthy_str in Hne. by rewrite Hne. Qed.

(** The module client of [gemini.ts] and the route's [getAI] agree on
    every configuration the route accepts; where [getAI] throws (no key or
    an empty one) the module still builds a client, with no key or the
    empty key. *)
Lemma gemini_ai_unchecked e :
  (forall k, getAI e = Normal k <-> gemini_ai e = Some k /\ k <> EmptyString) /\
  (forall m, getAI e = Abrupt m -> gemini_ai e = None \/ gemini_ai e = Some EmptyString).
Proof.
  unfold getAI, gemini_ai. destruct (GEMINI_API_KEY e) as [k|].
  2: { split; [intros k; split; [discriminate | by intros [? _]] | intros; by left]. }
  destruct (truthy (Some (JStr k))) eqn:Ht.
  - apply truthy_str in Ht. split; [|intros m H; discriminate H]. intros k'. split.
    + intros H. injection H as <-. by split.
    + by intros [[= <-] _].
  - assert (k = EmptyString) as -> by (destruct (decide (k = EmptyString)) as [|Hne]; [done|];
      apply truthy_str in Hne; congruence).
    split; [|intros; by right]. intros k'. split; [done | naive_solver].
Qed.

Lemma read_body_client img mime instr :
  read_body (client_request img mime instr) =
  Normal (Some (JStr img), Some (JStr mime), Some (JStr instr)).
Proof. reflexivity. Qed.

Lemma missing_client img mime instr :
  missing (Some (JStr img)) (Some (JStr mime)) (Some (JStr instr)) =
  bool_decide (img = EmptyString \/ mime = EmptyString \/ instr = EmptyString).
Proof.
  unfold missing. simpl.
  destruct (String.eqb_spec img EmptyString), (String.eqb_spec mime EmptyString),
    (String.eqb_spec instr EmptyString); simpl; case_bool_decide; naive_solver.
Qed.

Lemma spec_first_image_complete ps :
  Forall inline_complete ps ->
  match first_inline ps with
  | Some b => exists d m, blob_data b = Some d /\ blob_mimeType b = Some m /\
                          spec_first_image ps = Some (d, m)
  | None => spec_first_image ps = None
  end.
Proof.
  induction 1 as [|p ps Hp _ IH]; [done|]. unfold inline_complete in Hp. simpl.
  destruct (part_inlineData p) as [[[m|] [d|]]|]; simpl in *;
    try (destruct Hp as [[] []]; discriminate); eauto.
Qed.

Lemma find_text_template ps :
  to_template (js_or (find_text ps ≫= fun p => JStr <$> part_text p) (Some (JStr MSG_NO_ANSWER))) =
  default MSG_NO_ANSWER (spec_first_text ps).
Proof.
  unfold find_text. induction ps as [|[[[|a t]|] ib] ps IH]; simpl; auto.
Qed.

Lemma implements_error st msg e :
  st = spec_status e -> msg <> EmptyString ->
  match e with
  | UpstreamTextOnly t => msg = MSG_TEXT_ONLY ++ t
  | UpstreamError m => msg = m
  | _ => True
  end ->
  implements (error_response st msg) (Fails e).
Proof. intros -> Hne Hmsg. split; [done|]. by exists msg. Qed.

Ltac solve_implements_error :=
  apply implements_error; [done | try (apply str_app_neq_nil); cbv; congruence | done].

Lemma normalize_implements g :
  (forall ps, response_parts g = Some ps -> Forall inline_complete ps) ->
  implements (normalize g)
    (match response_parts g with
     | None => Fails UpstreamEmpty
     | Some ps =>
         match spec_first_image ps with
         | Some (d, m) => ImageArtifact d m
         | None => Fails (UpstreamTextOnly (default MSG_NO_ANSWER (spec_first_text ps)))
         end
     end).
Proof.
  intros Hwf. unfold normalize. destruct (response_parts g) as [ps|].
  - pose proof (spec_first_image_complete ps (Hwf ps eq_refl)) as Hfi.
    destruct (first_inline ps) as [b|].
    + destruct Hfi as (d & m & -> & -> & ->). done.
    + rewrite Hfi, <- find_text_template. solve_implements_error.
  - solve_implements_error.
Qed.

(** C1: the endpoint refines its contract.  With the API key configured,
    on the body the client sends, and for a model reply of the kind the
    contract describes (within the timeout, and the same whether the
    prompt is separated by one line feed or two), the response carries the
    contract's status and payload: 400 when a field is empty, 200 with the
    first inline image, 500 with the model's text or the upstream
    message, 500 when the reply has no parts. *)
Theorem POST_refines_spec e k up img mime instr :
  GEMINI_API_KEY e = Some k -> k <> EmptyString ->
  up (model_request (Some (JStr img)) (Some (JStr mime)) (Some (JStr instr))) =
    up (spec_request img mime instr) ->
  well_behaved (up (spec_request img mime instr)) ->
  implements (POST_response e up (client_request img mime instr))
             (spec_transform up img mime instr).
Proof.
  intros Hk Hne Hup [Hlat Hwb]. unfold POST_response, spec_transform.
  rewrite POST_eq, (getAI_ok e k), read_body_client, missing_client by done.
  case_bool_decide as Hmiss.
  { rewrite decide_True by done. solve_implements_error. }
  rewrite decide_False by done. rewrite Hup.
  unfold spec_normalize. rewrite (proj2 (N.leb_gt _ _) Hlat).
  destruct (outcome _) as [g|[name [|a m]|v]]; cbn -[implements error_response normalize].
  - by apply normalize_implements.
  - by destruct Hwb.
  - rewrite bool_decide_eq_false_2 by (by destruct Hwb). cbn -[implements error_response].
    solve_implements_error.
  - solve_implements_error.
Qed.

(** C24: a late reply is not a timeout.  With the key set and the three
    fields non-empty, when the model answers normally but only after the
    120 seconds have run out, the contract prescribes the 504 of
    [UpstreamTimeout], while the endpoint answers as for a timely reply:
    the normalised reply, 200 with the image when it holds one. *)
Theorem POST_late_reply_not_timeout e k up img mime instr g :
  GEMINI_API_KEY e = Some k -> k <> EmptyString ->
  img <> EmptyString -> mime <> EmptyString -> instr <> EmptyString ->
  (forall gr, outcome (up gr) = Normal g /\ (TIMEOUT_MS <= latency_ms (up gr))%N) ->
  spec_transform up img mime instr = Fails UpstreamTimeout /\
  POST_response e up (client_request img mime instr) = normalize g.
Proof.
  intros Hk Hne Hi Hm Hs Hup. split.
  - unfold spec_transform. rewrite decide_False by naive_solver.
    unfold spec_normalize. destruct (Hup (spec_request img mime instr)) as [_ Hl].
    by rewrite (proj2 (N.leb_le _ _) Hl).
  - unfold POST_response. rewrite POST_eq, (getAI_ok e k), read_body_client, missing_client by done.
    rewrite bool_decide_eq_false_2 by naive_solver.
    by rewrite (proj1 (Hup _)).
Qed.

Lemma outer_catch_value l1 l2 c : (outer_catch l1 c).2 = (outer_catch l2 c).2.
Proof. by destruct c. Qed.

(** C7: the 120-second timer has no effect on the response.  Two models
    that give the same outcomes, whatever their latencies, yield the same
    response: [controller.abort()] runs when the timer fires, but the
    controller's signal is never passed to [generateContent], so a reply
    that arrives after 120 seconds is still normalised and returned. *)
Theorem POST_ignores_timer e up1 up2 rq :
  (forall gr, outcome (up1 gr) = outcome (up2 gr)) ->
  POST_response e up1 rq = POST_response e up2 rq.
Proof.
  intros Hout. unfold POST_response. rewrite !POST_eq.
  destruct (getAI e) as [k|]; [|done]. destruct (read_body rq) as [[[a b] c]|]; [|done].
  destruct (missing a b c); [done|]. rewrite Hout. by destruct (inner_result _).
Qed.

(** C25: the effects of a request happen in a fixed order.  Either the model
    is never called (no effect, or only the [console.error] of a caught
    error), or the key was found and the body's three fields [a], [b], [c]
    are all present: then the timer is armed, the model is called once
    with the request built from exactly those fields, the timer's abort
    runs if the reply is late, and the timer is cleared, before any
    [console.error]. *)
Theorem POST_log_shape e up rq :
  let l := (POST e up rq).1 in
  (l = [] \/ exists err, l = [ConsoleError err]) \/
  exists k a b c tail,
    getAI e = Normal k /\ read_body rq = Normal (a, b, c) /\ missing a b c = false /\
    l = SetTimeout TIMEOUT_MS :: CallModel (model_request a b c) ::
          timer_fired (up (model_request a b c)) ++ ClearTimeout :: tail /\
    (tail = [] \/ exists err, tail = [ConsoleError err]).
Proof.
  simpl. rewrite POST_eq.
  destruct (getAI e) as [k|err] eqn:Ek; [|left; right; by eexists].
  destruct (read_body rq) as [[[a b] c]|err] eqn:Eb; [|left; right; by eexists].
  destruct (missing a b c) eqn:Em; [by left; left|]. right. exists k, a, b, c.
  destruct (inner_result _) as [r|err]; simpl.
  - exists []. split_and!; auto.
  - exists [ConsoleError err]. split_and!; [done | done | done | by rewrite <- app_assoc | eauto].
Qed.

(** The missing-parameter answer, before any timer. *)
Lemma POST_missing_param_eq e k up rq a b c :
  GEMINI_API_KEY e = Some k -> k <> EmptyString ->
  read_body rq = Normal (a, b, c) ->
  truthy a = false \/ truthy b = false \/ truthy c = false ->
  POST e up rq = ([], Normal (error_response 400 MSG_MISSING)).
Proof.
  intros Hk Hne Hb Hf. rewrite POST_eq, (getAI_ok e k), Hb by done.
  unfold missing. by destruct Hf as [-> | [-> | ->]]; rewrite ?orb_true_r.
Qed.

(** C16: a missing parameter is answered with 400 and the fixed message,
    before any timer or model call.  A field is missing when it is falsy:
    absent, [null], [false], [0] or the empty string. *)
Theorem POST_missing_param e k up rq a b c :
  GEMINI_API_KEY e = Some k -> k <> EmptyString ->
  read_body rq = Normal (a, b, c) ->
  truthy a = false \/ truthy b = false \/ truthy c = false ->
  POST e up rq = ([], Normal (error_response 400 MSG_MISSING)).
Proof. apply POST_missing_param_eq. Qed.

(** C26: without an API key (absent or empty) every request is answered
    with 500 and the configuration message, whatever its body; the model is
    not called and the error is logged. *)
Theorem POST_no_key e up rq :
  GEMINI_API_KEY e = None \/ GEMINI_API_KEY e = Some EmptyString ->
  POST e up rq = ([ConsoleError (Error MSG_NO_KEY)], Normal (error_response 500 MSG_NO_KEY)).
Proof. intros Hk. rewrite POST_eq. unfold getAI. by destruct Hk as [-> | ->]. Qed.

(** C27: the handler never lets an exception escape: every request gets a
    response, whatever the configuration, the body and the model do. *)
Theorem POST_total e up rq : exists r, (POST e up rq).2 = Normal r.
Proof.
  rewrite POST_eq. destruct (getAI e) as [k|]; [|by eexists].
  destruct (read_body rq) as [[[a b] c]|]; [|by eexists].
  destruct (missing a b c); [by eexists|].
  destruct (inner_result _); by eexists.
Qed.



Lemma first_inline_app ps1 p ps2 b :
  Forall (fun q => part_inlineData q = None) ps1 -> part_inlineData p = Some b ->
  first_inline (ps1 ++ p :: ps2)%list = Some b.
Proof. induction 1 as [|q ps1 Hq _ IH]; simpl; intros Hp; [by rewrite Hp | by rewrite Hq, IH]. Qed.

Lemma first_inline_none ps :
  Forall (fun q => part_inlineData q = None) ps -> first_inline ps = None.
Proof. induction 1 as [|q ps Hq _ IH]; simpl; [done | by rewrite Hq]. Qed.

(** C15: the first inline image wins.  When the reply's parts hold an
    inline image after parts without one, the response is 200 with that
    part's data and type, whatever the later parts hold. *)
Theorem normalize_first_inline_wins g ps1 p ps2 b :
  response_parts g = Some (ps1 ++ p :: ps2)%list ->
  Forall (fun q => part_inlineData q = None) ps1 ->
  part_inlineData p = Some b ->
  normalize g = json_response 200 [("image", JStr <$> blob_data b);
                                   ("mimeType", JStr <$> blob_mimeType b)].
Proof. intros Hg H1 Hp. unfold normalize. by rewrite Hg, (first_inline_app _ _ _ b). Qed.

(** C28: a reply with parts but no inline image is answered with 500 and a
    message that embeds the first non-empty text of the model, or the
    placeholder [응답 없음] when there is none. *)
Theorem normalize_text_only g ps :
  response_parts g = Some ps ->
  Forall (fun q => part_inlineData q = None) ps ->
  normalize g = error_response 500 (MSG_TEXT_ONLY ++ default MSG_NO_ANSWER (spec_first_text ps)).
Proof.
  intros Hg Hnone. unfold normalize. by rewrite Hg, first_inline_none, find_text_template.
Qed.

(** ** Concrete runs *)

Definition env_ok : env := {| GEMINI_API_KEY := Some "key" |}.
Definition text_part (t : string) : part := {| part_text := Some t; part_inlineData := None |}.
Definition image_part (d : string) : part :=
  {| part_text := None;
     part_inlineData := Some {| blob_mimeType := Some "image/png"; blob_data := Some d |} |}.
Definition reply_of (ps : list part) : gen_response :=
  {| candidates := Some [{| cand_content := Some {| content_parts := Some ps |} |}] |}.
Definition up_parts (lat : N) (ps : list part) : upstream :=
  fun _ => {| latency_ms := lat; outcome := Normal (reply_of ps) |}.

Lemma POST_late_reply_not_timeout_witness :
  spec_transform (up_parts 200000 [image_part "T1VU"]) "QUJD" "image/png" "anime" = Fails UpstreamTimeout /\
  POST_response env_ok (up_parts 200000 [image_part "T1VU"]) (client_request "QUJD" "image/png" "anime")
    = json_response 200 [("image", Some (JStr "T1VU")); ("mimeType", Some (JStr "image/png"))].
Proof.
  apply (POST_late_reply_not_timeout env_ok "key" _ _ _ _ (reply_of [image_part "T1VU"]));
    try reflexivity; try discriminate.
  intros gr. split; [reflexivity | vm_compute; discriminate].
Defined.

Lemma POST_refines_spec_witness :
  implements (POST_response env_ok (up_parts 1000 [text_part "ok"; image_part "T1VU"])
                (client_request "QUJD" "image/png" "anime"))
             (spec_transform (up_parts 1000 [text_part "ok"; image_part "T1VU"]) "QUJD" "image/png" "anime").
Proof.
  apply (POST_refines_spec env_ok "key"); [reflexivity | discriminate | reflexivity |].
  split; [reflexivity|]. intros ps Hps. injection Hps as <-.
  repeat constructor; eexists; reflexivity.
Defined.

Lemma POST_ignores_timer_witness :
  POST_response env_ok (up_parts 200000 [image_part "T1VU"]) (client_request "QUJD" "image/png" "anime") =
  POST_response env_ok (up_parts 1000 [image_part "T1VU"]) (client_request "QUJD" "image/png" "anime").
Proof. apply POST_ignores_timer. reflexivity. Defined.

Lemma POST_missing_param_witness :
  POST env_ok (up_parts 1000 []) (client_request EmptyString "image/png" "anime") =
  ([], Normal (error_response 400 MSG_MISSING)).
Proof.
  apply (POST_missing_param env_ok "key" _ _ (Some (JStr EmptyString))
           (Some (JStr "image/png")) (Some (JStr "anime")));
    [reflexivity | discriminate | reflexivity | left; reflexivity].
Defined.

Lemma POST_no_key_witness :
  POST {| GEMINI_API_KEY := Some EmptyString |} (up_parts 1000 []) (client_request "QUJD" "image/png" "anime") =
  ([ConsoleError (Error MSG_NO_KEY)], Normal (error_response 500 MSG_NO_KEY)).
Proof. apply POST_no_key. right. reflexivity. Defined.

Lemma normalize_first_inline_wins_witness :
  normalize (reply_of [text_part "ok"; image_part "Rmlyc3Q="; image_part "U2Vjb25k"]) =
  json_response 200 [("image", Some (JStr "Rmlyc3Q=")); ("mimeType", Some (JStr "image/png"))].
Proof.
  apply (normalize_first_inline_wins _ [text_part "ok"] (image_part "Rmlyc3Q=") [image_part "U2Vjb25k"]
           {| blob_mimeType := Some "image/png"; blob_data := Some "Rmlyc3Q=" |});
    [reflexivity | repeat constructor | reflexivity].
Defined.

Lemma normalize_text_only_witness :
  normalize (reply_of [text_part EmptyString; text_part "I cannot edit this photo."]) =
  error_response 500 (MSG_TEXT_ONLY ++ "I cannot edit this photo.").
Proof.
  apply (normalize_text_only _ [text_part EmptyString; text_part "I cannot edit this photo."]);
    [reflexivity | repeat constructor].
Defined.

End Proxy.
