(* ===== verification/Controller.v ===== *)
(** * The page controller, [src/app/page.tsx]

    [Home] keeps five [useState] cells ([AppState]) and updates them from
    event handlers.  Two handlers are asynchronous: the uploader's
    [processFile] awaits [resizeAndConvertToBase64], and [handleTransform]
    awaits [fetch("/api/transform")].  Each is split at its [await]: the
    synchronous part is a function of the state, the rest runs when the
    promise settles, as a separate event, with the values the handler's
    closure captured ([Pending]) and the state current at that time.

    A [World] holds the page state, the uploader's state ([Prepare]), the
    operations in flight and whether the browser's file dialog is open.
    [page_step] is the page as the user can drive it: an event is accepted
    only when the render shows the control that raises it and leaves it
    enabled (lines 116-212 of [page.tsx] and the [disabled] props of the
    child components; the drop zone's drag, drop and click handlers and
    the file input's [onChange] of [ImageUploader.tsx]); completions of
    operations in flight are always accepted, in any order.  [step] puts
    the modal file dialog in front of it.  [reachable] is rule induction
    over [step] from the initial world; [wf_world] is the invariant it
    keeps, and [eventually] states that the operations in flight settle.

    The contract of section 4.5 of the specification is the stage machine
    [spec_step], labelled by the user action ([action_of] gives an event's
    action); [stage_of] maps a page state to its stage and [refines] says
    that an event moves between stages as its action allows.  The
    interface to the server and the concrete runs are in [Integration.v],
    the render in [View.v]. *)

From Stdlib Require Import QArith Wellfounded.
From S2P Require Import Prelude Js Catalog Prepare Proxy.
Import Catalog Prepare.

Module App.

Definition MSG_FAILED : string := "변환에 실패했습니다.".
Definition MSG_NO_IMAGE : string := "변환된 이미지를 받지 못했습니다. 다시 시도해주세요.".
Definition MSG_UNKNOWN : string := "알 수 없는 오류가 발생했습니다.".

(** [TransformResult], [src/types/index.ts] lines 11-15. *)
Record TransformResult := {
  originalSrc : string;
  transformedSrc : string;
  style : StyleOption
}.

(** The five state cells of [Home], lines 13-17. *)
Record AppState := {
  uploadedImage : option UploadedImage;
  selectedStyle : option StyleOption;
  isLoading : bool;
  result : option TransformResult;
  error : option string
}.

Definition app_init : AppState :=
  {| uploadedImage := None; selectedStyle := None; isLoading := false;
     result := None; error := None |}.

(** ** Synchronous handlers *)

(** [handleImageUpload], lines 24-32: the selected style is kept. *)
Definition handleImageUpload (s : AppState) (image : UploadedImage) : AppState :=
  {| uploadedImage := Some image; selectedStyle := selectedStyle s; isLoading := isLoading s;
     result := None; error := None |}.

(** [handleStyleSelect], lines 35-38. *)
Definition handleStyleSelect (s : AppState) (sty : StyleOption) : AppState :=
  {| uploadedImage := uploadedImage s; selectedStyle := Some sty; isLoading := isLoading s;
     result := result s; error := None |}.

(** [handleRetryWithNewStyle], lines 90-97. *)
Definition handleRetryWithNewStyle (s : AppState) : AppState :=
  {| uploadedImage := uploadedImage s; selectedStyle := None; isLoading := isLoading s;
     result := None; error := None |}.

(** [handleStartOver], lines 100-106, and [handleImageReset], lines
    109-114, which set the same four cells. *)
Definition handleStartOver (s : AppState) : AppState :=
  {| uploadedImage := None; selectedStyle := None; isLoading := isLoading s;
     result := None; error := None |}.

Definition handleImageReset (s : AppState) : AppState :=
  {| uploadedImage := None; selectedStyle := None; isLoading := isLoading s;
     result := None; error := None |}.

(** ** [handleTransform], lines 41-87 *)

(** What the closure captured when the request was sent. *)
Record Pending := { captured_image : UploadedImage; captured_style : StyleOption }.

(** [JSON.stringify({ imageBase64, mimeType, stylePrompt })], lines 52-56:
    an [undefined] payload drops its field. *)
Definition transform_body (img : UploadedImage) (sty : StyleOption) : json :=
  mk_obj [("imageBase64", JStr <$> base64 img);
          ("mimeType", Some (JStr (mimeType img)));
          ("stylePrompt", Some (JStr (prompt sty)))].

(** Up to the [await fetch(...)]: the guard of line 42, then
    [setIsLoading(true); setError(null); setResult(null)]. *)
Definition handleTransform_start (s : AppState) : option (AppState * Pending) :=
  match uploadedImage s, selectedStyle s with
  | Some img, Some sty =>
      Some ({| uploadedImage := uploadedImage s; selectedStyle := selectedStyle s;
               isLoading := true; result := None; error := None |},
            {| captured_image := img; captured_style := sty |})
  | _, _ => None
  end.

(** What [fetch] settles with: a network failure, or a response whose body
    [response.json()] parses or fails to parse. *)
Inductive fetch_result :=
| FetchFailed (e : exn)
| FetchResponse (status : N) (body : completion json).

(** [response.ok] *)
Definition http_ok (st : N) : bool := (200 <=? st)%N && (st <=? 299)%N.

(** Lines 59-75: the body read, the two checks, the result built from the
    captured values. *)
Definition transform_outcome (p : Pending) (fr : fetch_result) : completion TransformResult :=
  match fr with
  | FetchFailed e => mthrow e
  | FetchResponse st body =>
      data ← body;
      err ← get_prop (Some data) "error";
      if negb (http_ok st) || truthy err
      then mthrow (Error (to_template (js_or err (Some (JStr MSG_FAILED)))))
      else
        image ← get_prop (Some data) "image";
        if negb (truthy image) then mthrow (Error MSG_NO_IMAGE)
        else
          mt ← get_prop (Some data) "mimeType";
          mret {| originalSrc := preview (captured_image p);
                  transformedSrc := "data:" ++ to_template mt ++ ";base64," ++ to_template image;
                  style := captured_style p |}
  end.

(** After the [await]: [setResult] or [setError], then [setIsLoading(false)]
    in [finally], on the state current at that time. *)
Definition handleTransform_finish (s : AppState) (p : Pending) (fr : fetch_result) : AppState :=
  match transform_outcome p fr with
  | Normal r =>
      {| uploadedImage := uploadedImage s; selectedStyle := selectedStyle s;
         isLoading := false; result := Some r; error := error s |}
  | Abrupt e =>
      {| uploadedImage := uploadedImage s; selectedStyle := selectedStyle s;
         isLoading := false; result := result s; error := Some (message_or e MSG_UNKNOWN) |}
  end.

(** ** The stage machine of the specification (section 4.5) *)

Inductive stage := Empty | Uploaded | StyleChosen | Transforming | Resulted | Failed.

#[export] Instance stage_eq_dec : EqDecision stage.
Proof. solve_decision. Defined.

Definition stage_of (s : AppState) : stage :=
  if isLoading s then Transforming else
  match result s, error s, uploadedImage s, selectedStyle s with
  | Some _, _, _, _ => Resulted
  | None, Some _, _, _ => Failed
  | None, None, None, _ => Empty
  | None, None, Some _, None => Uploaded
  | None, None, Some _, Some _ => StyleChosen
  end.

(** The user actions of the specification. *)
Inductive action := AUpload | AChoose | ATransform | AComplete | ANewStyle | AStartOver | AReset.

(** The transitions the specification allows, by action. *)
Inductive spec_step : action -> stage -> stage -> Prop :=
| sp_upload st : spec_step AUpload st Uploaded
| sp_choose : spec_step AChoose Uploaded StyleChosen
| sp_rechoose : spec_step AChoose StyleChosen StyleChosen
| sp_choose_again st : st = Resulted \/ st = Failed -> spec_step AChoose st StyleChosen
| sp_transform st : st = StyleChosen \/ st = Failed -> spec_step ATransform st Transforming
| sp_complete st : st = Resulted \/ st = Failed -> spec_step AComplete Transforming st
| sp_new_style st : st = Resulted \/ st = Failed -> spec_step ANewStyle st StyleChosen
| sp_start_over st : st = Resulted \/ st = Failed -> spec_step AStartOver st Empty
| sp_reset st : spec_step AReset st Empty.

#[export] Instance spec_step_dec a st st' : Decision (spec_step a st st').
Proof.
  destruct a, st, st';
    first [ left; by constructor; auto | right; intros H; inversion H; naive_solver ].
Defined.

(** ** The page as the user drives it *)

Record World := {
  app : AppState;
  uploader : Uploader;
  preps : list File;          (** preparations in flight, by start order *)
  inflight : list Pending;    (** transform requests in flight *)
  dialog_open : bool          (** the browser's file dialog is open *)
}.

Definition world_init : World :=
  {| app := app_init; uploader := uploader_init; preps := []; inflight := [];
     dialog_open := false |}.

Section Page.

(** The browser's codec, as in [Prepare]. *)
Context {Bitmap : Type}.
Variable draw : Bitmap -> N -> N -> Bitmap.
Variable can_encode : string -> bool.
Variable encode : string -> Q -> Bitmap -> list Byte.byte.

Inductive event :=
| DragEnter | DragLeave | DragOver                        (** over the drop zone *)
| Drop (files : list File)                               (** files dropped on the zone *)
| ClickZone                                              (** click or Enter on the zone *)
| ChooseFiles (files : list File)                        (** the dialog returns files *)
| CancelDialog                                           (** the dialog is dismissed *)
| PrepDone (i : nat) (ev : @load_event Bitmap) (ctx_ok : bool) (** preparation [i] settles *)
| SelectStyle (sty : StyleOption)                        (** a [StyleCard] *)
| ClickTransform                                         (** the [TransformButton] *)
| ClickRetryError                                        (** "다시 시도" in the error box *)
| TransformDone (i : nat) (fr : fetch_result)            (** request [i] settles *)
| ClickRetryNewStyle                                     (** [ResultView] *)
| ClickStartOver                                         (** [ResultView] *)
| ClickReset.                                            (** "다시 선택" in the preview *)

Definition with_app (w : World) (s : AppState) : World :=
  {| app := s; uploader := uploader w; preps := preps w; inflight := inflight w;
     dialog_open := dialog_open w |}.

Definition with_uploader (w : World) (u : Uploader) : World :=
  {| app := app w; uploader := u; preps := preps w; inflight := inflight w;
     dialog_open := dialog_open w |}.

(** The uploader's state after a drop or a file choice, and the
    preparation it started, if any. *)
Definition start_prep (w : World) (r : Uploader * option File) (dialog : bool) : World :=
  {| app := app w; uploader := r.1; preps := preps w ++ option_list r.2;
     inflight := inflight w; dialog_open := dialog |}.

(** The file dialog opened or closed. *)
Definition with_dialog (w : World) (b : bool) : World :=
  {| app := app w; uploader := uploader w; preps := preps w; inflight := inflight w;
     dialog_open := b |}.

(** The file dialog is modal: while it is open the page takes no input
    but the dialog's answer; completions are not input. *)
Definition modal_blocked (w : World) (e : event) : bool :=
  match e with
  | PrepDone _ _ _ | TransformDone _ _ => false
  | ChooseFiles _ | CancelDialog => negb (dialog_open w)
  | _ => dialog_open w
  end.

(** One event on the page; [None] when the control is not shown or is
    disabled, or the operation is not in flight. *)
Definition page_step (w : World) (e : event) : option World :=
  let s := app w in
  (* the drop zone is rendered when no image is held (ImageUploader.tsx
     lines 105, 147); its [disabled] prop is [isLoading] (page.tsx 156) *)
  let zone := bool_decide (uploadedImage s = None) in
  match e with
  | DragEnter => if zone then Some (with_uploader w (handleDragEnter (uploader w))) else None
  | DragLeave => if zone then Some (with_uploader w (handleDragLeave (uploader w))) else None
  | DragOver => if zone then Some w else None
  | Drop files =>
      if zone then Some (start_prep w (handleDrop (uploader w) (isLoading s) files) (dialog_open w))
      else None
  | ClickZone =>
      if zone then Some (if handleClick (isLoading s) then with_dialog w true else w) else None
  | ChooseFiles files =>
      (* the input's [onChange] fires only while it is mounted *)
      Some (if zone then start_prep w (handleFileChange (uploader w) files) false
            else with_dialog w false)
  | CancelDialog => Some (with_dialog w false)
  | PrepDone i ev ctx_ok =>
      f ← preps w !! i;
      let r := resizeAndConvertToBase64 draw can_encode encode f ev ctx_ok in
      let '(u, img) := processFile_finish (uploader w) f r in
      Some {| app := match img with Some im => handleImageUpload s im | None => s end;
              uploader := u; preps := delete i (preps w); inflight := inflight w;
              dialog_open := dialog_open w |}
  | SelectStyle sty =>
      (* the grid is rendered with an image; cards are disabled while loading *)
      if bool_decide (uploadedImage s <> None) && negb (isLoading s) && bool_decide (sty ∈ STYLES)
      then Some (with_app w (handleStyleSelect s sty)) else None
  | ClickTransform =>
      (* rendered when image, style and no result; enabled when canTransform *)
      if bool_decide (uploadedImage s <> None) && bool_decide (selectedStyle s <> None) &&
         bool_decide (result s = None) && negb (isLoading s)
      then match handleTransform_start s with
           | Some (s', p) => Some {| app := s'; uploader := uploader w; preps := preps w;
                                     inflight := inflight w ++ [p]; dialog_open := dialog_open w |}
           | None => Some w
           end
      else None
  | ClickRetryError =>
      (* rendered whenever there is an error; never disabled *)
      if bool_decide (error s <> None) then
        match handleTransform_start s with
        | Some (s', p) => Some {| app := s'; uploader := uploader w; preps := preps w;
                                  inflight := inflight w ++ [p]; dialog_open := dialog_open w |}
        | None => Some w
        end
      else None
  | TransformDone i fr =>
      p ← inflight w !! i;
      Some {| app := handleTransform_finish s p fr; uploader := uploader w; preps := preps w;
              inflight := delete i (inflight w); dialog_open := dialog_open w |}
  | ClickRetryNewStyle =>
      if bool_decide (result s <> None) then Some (with_app w (handleRetryWithNewStyle s)) else None
  | ClickStartOver =>
      if bool_decide (result s <> None) then Some (with_app w (handleStartOver s)) else None
  | ClickReset =>
      if bool_decide (uploadedImage s <> None) && negb (isLoading s)
      then Some (with_app w (handleImageReset s)) else None
  end.

Definition step (w : World) (e : event) : option World :=
  if modal_blocked w e then None else page_step w e.

Inductive reachable : World -> Prop :=
| reachable_init : reachable world_init
| reachable_step w e w' : reachable w -> step w e = Some w' -> reachable w'.

(** Running a sequence of events. *)
Fixpoint run (w : World) (es : list event) : option World :=
  match es with
  | [] => Some w
  | e :: es' => w' ← step w e; run w' es'
  end.

(** ** Invariants *)

(** At most one request in flight, [isLoading] says whether there is one,
    while loading neither an error nor a result is shown, and an error
    and a result are never shown together. *)
Definition inv_loading (w : World) : Prop :=
  length (inflight w) <= 1 /\
  (isLoading (app w) = true <-> inflight w <> []) /\
  (isLoading (app w) = true -> error (app w) = None /\ result (app w) = None) /\
  (error (app w) <> None -> result (app w) = None).

Lemma inv_loading_idle w : inv_loading w -> isLoading (app w) = false -> inflight w = [].
Proof. intros (_ & Hl & _ & _) Hf. destruct (inflight w); [done|]. rewrite Hf in Hl. naive_solver. Qed.

Lemma inv_loading_error w : inv_loading w -> error (app w) <> None -> isLoading (app w) = false.
Proof. intros (_ & _ & He & _) Hne. destruct (isLoading _); [|done]. naive_solver. Qed.

Lemma inv_loading_result w : inv_loading w -> result (app w) <> None -> isLoading (app w) = false.
Proof. intros (_ & _ & He & _) Hne. destruct (isLoading _); [|done]. naive_solver. Qed.

Lemma lookup_delete_single {A} (l : list A) i x :
  length l <= 1 -> l !! i = Some x -> delete i l = [].
Proof. destruct l as [|y [|z l]]; simpl; intros; [done| |lia]. by destruct i. Qed.

(** Starting a request from an idle world. *)
Lemma start_preserves w s' p :
  inflight w = [] -> handleTransform_start (app w) = Some (s', p) ->
  inv_loading {| app := s'; uploader := uploader w; preps := preps w; inflight := inflight w ++ [p];
                 dialog_open := dialog_open w |}.
Proof.
  intros Hidle Hs. unfold handleTransform_start in Hs. rewrite Hidle.
  destruct (uploadedImage (app w)), (selectedStyle (app w)); try discriminate.
  injection Hs as <- <-. unfold inv_loading; simpl. naive_solver.
Qed.

(** The uploader's events: they change neither the page state nor the
    requests in flight. *)
Definition is_uploader_event (e : event) : bool :=
  match e with
  | DragEnter | DragLeave | DragOver | Drop _ | ClickZone | ChooseFiles _ | CancelDialog => true
  | _ => false
  end.

Lemma uploader_event_frame w e w' :
  is_uploader_event e = true -> step w e = Some w' -> app w' = app w /\ inflight w' = inflight w.
Proof.
  intros He Hstep. destruct e; try discriminate He; unfold step, page_step in Hstep; simpl in Hstep;
    invert_step Hstep;
    repeat case_match; done.
Qed.

Lemma inv_loading_frame w w' :
  app w' = app w -> inflight w' = inflight w -> inv_loading w -> inv_loading w'.
Proof. unfold inv_loading. by intros -> ->. Qed.

(** Case analysis on an event: the uploader's events by [uploader_event_frame],
    then one goal per other event, its [step] inverted. *)
Ltac step_cases e Hstep :=
  let Eu := fresh "Eu" in
  destruct (is_uploader_event e) eqn:Eu;
  [ destruct (uploader_event_frame _ e _ Eu Hstep) as [Happ Hinf]
  | destruct e; try discriminate Eu; unfold step, page_step in Hstep; simpl in Hstep;
    invert_step Hstep ].

Lemma step_inv_loading w e w' : inv_loading w -> step w e = Some w' -> inv_loading w'.
Proof.
  intros Hinv Hstep. pose proof Hinv as (H1 & H2 & H3 & H4).
  step_cases e Hstep; [exact (inv_loading_frame w w' Happ Hinf Hinv) | idtac ..].
  - destruct o; unfold inv_loading; simpl; naive_solver.
  - unfold inv_loading; simpl. naive_solver.
  - apply start_preserves; [by apply inv_loading_idle | done].
  - exact Hinv.
  - apply start_preserves; [apply inv_loading_idle; [done | by apply inv_loading_error] | done].
  - exact Hinv.
  - unfold inv_loading; simpl. rewrite (lookup_delete_single _ _ _ H1 Heqo).
    assert (Hl : isLoading (app w) = true) by (apply H2; intros E; by rewrite E in Heqo).
    unfold handleTransform_finish. destruct (transform_outcome _ _); simpl; naive_solver.
  - pose proof (inv_loading_result w Hinv ltac:(assumption)). unfold inv_loading; simpl. naive_solver.
  - pose proof (inv_loading_result w Hinv ltac:(assumption)). unfold inv_loading; simpl. naive_solver.
  - unfold inv_loading; simpl. naive_solver.
Qed.

(** [inv_loading] holds in every reachable world. *)
Lemma reachable_inv w : reachable w -> inv_loading w.
Proof.
  induction 1 as [|w e w' _ IH Hs]; [|by eapply step_inv_loading].
  unfold inv_loading. simpl. naive_solver.
Qed.

(** C2: in every world the page can reach, at most one transform request
    is in flight, [isLoading] is set exactly while one is, and no error or
    result is shown meanwhile: the disabled controls are what keep a
    second request from being sent. *)
Theorem reachable_inv_loading w : reachable w -> inv_loading w.
Proof. apply reachable_inv. Qed.

(** The result shown is the one of the image held, and every request in
    flight was sent for the image held. *)
Definition coherent (w : World) : Prop :=
  (forall r, result (app w) = Some r ->
     exists img, uploadedImage (app w) = Some img /\ originalSrc r = preview img) /\
  Forall (fun p => uploadedImage (app w) = Some (captured_image p)) (inflight w).

Definition is_prep_done (e : event) : bool :=
  match e with PrepDone _ _ _ => true | _ => false end.

(** Reachable worlds in which no preparation settles while a request is in
    flight. *)
Inductive reachable_quiet : World -> Prop :=
| quiet_init : reachable_quiet world_init
| quiet_step w e w' :
    reachable_quiet w -> step w e = Some w' ->
    (is_prep_done e = true -> inflight w = []) -> reachable_quiet w'.

Lemma reachable_quiet_reachable w : reachable_quiet w -> reachable w.
Proof. induction 1; econstructor; eauto. Qed.

Lemma finish_image s p fr :
  uploadedImage (handleTransform_finish s p fr) = uploadedImage s.
Proof. unfold handleTransform_finish. by destruct (transform_outcome p fr). Qed.

(** A successful transform shows the image and the style the request was
    sent with. *)
Lemma transform_outcome_original p fr r :
  transform_outcome p fr = Normal r ->
  originalSrc r = preview (captured_image p) /\ style r = captured_style p.
Proof.
  unfold transform_outcome. destruct fr as [|st [data|]]; simpl; try discriminate.
  repeat (case_match; simpl; try discriminate). by intros [= <-].
Qed.

Lemma step_coherent w e w' :
  inv_loading w -> coherent w -> step w e = Some w' ->
  (is_prep_done e = true -> inflight w = []) -> coherent w'.
Proof.
  intros Hinv [Hres Hfl] Hstep Hquiet. pose proof Hinv as (H1 & H2 & H3 & H4).
  step_cases e Hstep; [unfold coherent; rewrite Happ, Hinf; by split | unfold coherent; simpl ..].
  - rewrite Hquiet by done. destruct o; simpl; [split; [done | constructor] | done].
  - split; [done | exact Hfl].
  - unfold handleTransform_start in *.
    destruct (uploadedImage (app w)) eqn:Ei, (selectedStyle (app w)); simplify_eq/=.
    split; [done|]. rewrite (inv_loading_idle w Hinv) by done. by repeat constructor.
  - done.
  - unfold handleTransform_start in *.
    destruct (uploadedImage (app w)) eqn:Ei, (selectedStyle (app w)); simplify_eq/=.
    split; [done|]. rewrite (inv_loading_idle w Hinv) by (by apply inv_loading_error).
    by repeat constructor.
  - done.
  - split; [|rewrite finish_image; by apply Forall_delete].
    unfold handleTransform_finish. destruct (transform_outcome p fr) as [r|] eqn:Eo; simpl.
    + intros r' [= <-]. rewrite (Forall_lookup_1 _ _ _ _ Hfl Heqo).
      eexists; split; [done|]. exact (proj1 (transform_outcome_original p fr r Eo)).
    + exact Hres.
  - split; [done | exact Hfl].
  - rewrite (inv_loading_idle w Hinv (inv_loading_result w Hinv ltac:(assumption))).
    split; [done | constructor].
  - rewrite (inv_loading_idle w Hinv) by done. split; [done | constructor].
Qed.

(** C10: as long as no preparation settles while a request is in flight,
    the result the page shows is the one of the image it holds: its
    "before" picture is the held image's preview. *)
Theorem reachable_quiet_coherent w : reachable_quiet w -> coherent w.
Proof.
  induction 1 as [|w e w' Hr IH Hs Hq].
  - split; [done | constructor].
  - eapply step_coherent; eauto. apply reachable_inv, reachable_quiet_reachable, Hr.
Qed.

(** C11: a preparation that settles while a request is in flight breaks
    coherence.  When the uploader hands the page a new image [im] while
    request [p] is pending, and the request then succeeds, the page shows
    [p]'s result -- whose "before" picture is the image the request was
    sent with -- next to [im]: unless the two previews coincide, the
    result is not the one of the image held.  Neither the upload nor the
    completion checks the other. *)
Theorem prep_during_request_incoherent w i f ev ctx_ok w1 j p fr r w2 im :
  preps w !! i = Some f -> inflight w !! j = Some p ->
  (processFile_finish (uploader w) f (resizeAndConvertToBase64 draw can_encode encode f ev ctx_ok)).2
    = Some im ->
  preview im <> preview (captured_image p) ->
  step w (PrepDone i ev ctx_ok) = Some w1 ->
  transform_outcome p fr = Normal r ->
  step w1 (TransformDone j fr) = Some w2 ->
  result (app w2) = Some r /\ uploadedImage (app w2) = Some im /\ ~ coherent w2.
Proof.
  intros Hf Hp Him Hne Hs1 Ho Hs2.
  unfold step, page_step in Hs1; simpl in Hs1. rewrite Hf in Hs1. simpl in Hs1.
  destruct (processFile_finish _ _ _) as [u o] eqn:Ep. simpl in Him. subst o.
  injection Hs1 as <-. unfold step, page_step in Hs2; simpl in Hs2. rewrite Hp in Hs2.
  simpl in Hs2. injection Hs2 as <-. simpl.
  unfold handleTransform_finish. rewrite Ho. simpl.
  split_and!; [done | done |]. intros [Hres _].
  destruct (Hres r eq_refl) as (img & [= <-] & Hsrc).
  apply Hne. rewrite <- Hsrc. exact (proj1 (transform_outcome_original p fr r Ho)).
Qed.

Lemma run_reachable w es w' : reachable w -> run w es = Some w' -> reachable w'.
Proof.
  revert w. induction es as [|e es IH]; simpl; intros w Hw Hrun; [by simplify_eq|].
  destruct (step w e) as [w1|] eqn:E; [|discriminate]. simpl in Hrun.
  eapply IH; [econstructor; eauto | exact Hrun].
Qed.

(** ** Well-formedness of the page *)

(** The held image comes from a file that passed validation and carries
    the file's type as its [mimeType]. *)
Definition image_typed (img : UploadedImage) : Prop :=
  validateFile (file img) = None /\ mimeType img = file_type (file img).

(** Every preparation in flight is of a validated file; the held image is
    typed; without an image the page is in its initial state; while
    loading, the selected style is the one the request was sent with; an
    idle uploader is not busy. *)
Definition wf_world (w : World) : Prop :=
  Forall (fun f => validateFile f = None) (preps w) /\
  (forall img, uploadedImage (app w) = Some img -> image_typed img) /\
  (uploadedImage (app w) = None -> app w = app_init) /\
  (isLoading (app w) = true ->
     Forall (fun p => selectedStyle (app w) = Some (captured_style p)) (inflight w)) /\
  (preps w = [] -> u_isProcessing (uploader w) = false).

(** Split [wf_world] into its five parts. *)
Ltac split_wf := split; [|split; [|split; [|split]]].

Lemma start_prep_wf w r d :
  wf_world w ->
  match r with
  | (u', Some f) => validateFile f = None /\ u_isProcessing u' = true
  | (u', None) => u_isProcessing u' = u_isProcessing (uploader w)
  end ->
  wf_world (start_prep w r d).
Proof.
  intros (Hp & Hi & Hn & Hl & Hu). destruct r as [u' [f|]]; intros Hr; unfold start_prep; simpl.
  - destruct Hr as [Hf Hb]. split_wf; try assumption.
    + apply Forall_app. split; [done | by constructor].
    + simpl. intros H. destruct (preps w); discriminate H.
  - rewrite app_nil_r. split_wf; try assumption. simpl. rewrite Hr. exact Hu.
Qed.

Lemma with_uploader_wf w u :
  wf_world w -> u_isProcessing u = u_isProcessing (uploader w) -> wf_world (with_uploader w u).
Proof. intros (Hp & Hi & Hn & Hl & Hu) Hb. split_wf; try assumption. simpl. by rewrite Hb. Qed.

Lemma with_dialog_wf w b : wf_world w -> wf_world (with_dialog w b).
Proof. done. Qed.

(** A successful preparation of a validated file gives a typed image. *)
Lemma prep_image_typed u f ev ctx_ok u' img :
  validateFile f = None ->
  processFile_finish u f (resizeAndConvertToBase64 draw can_encode encode f ev ctx_ok) = (u', Some img) ->
  image_typed img.
Proof.
  intros Hv. unfold processFile_finish.
  destruct (resizeAndConvertToBase64 _ _ _ _ _ _) as [p|] eqn:E; [|discriminate].
  intros [= _ <-]. split; [done|]. exact (prepare_mimeType _ _ _ _ _ _ _ E).
Qed.

Lemma finish_uploader_idle u f r : u_isProcessing (processFile_finish u f r).1 = false.
Proof. by destruct r. Qed.

Lemma uploader_step_wf w e w' :
  is_uploader_event e = true -> wf_world w -> step w e = Some w' -> wf_world w'.
Proof.
  intros He Hwf Hstep. destruct e; try discriminate He;
    unfold step, page_step in Hstep; simpl in Hstep; invert_step Hstep.
  - by apply with_uploader_wf.
  - by apply with_uploader_wf.
  - done.
  - apply start_prep_wf; [done | apply handleDrop_spec].
  - by case_match; [apply with_dialog_wf|].
  - case_match; [apply start_prep_wf; [done | apply process_first_spec] | by apply with_dialog_wf].
  - by apply with_dialog_wf.
Qed.

Lemma start_wf w s' p d :
  inflight w = [] -> handleTransform_start (app w) = Some (s', p) -> wf_world w ->
  wf_world {| app := s'; uploader := uploader w; preps := preps w; inflight := inflight w ++ [p];
              dialog_open := d |}.
Proof.
  intros Hidle Hs (Hp & Hi & Hn & Hl & Hu). unfold handleTransform_start in Hs. rewrite Hidle.
  destruct (uploadedImage (app w)) eqn:Ei, (selectedStyle (app w)) eqn:Es; try discriminate.
  injection Hs as <- <-. split_wf; simpl; try assumption; [done |].
  intros _. by repeat constructor.
Qed.

Lemma step_wf w e w' : inv_loading w -> wf_world w -> step w e = Some w' -> wf_world w'.
Proof.
  intros Hinv Hwf Hstep. destruct (is_uploader_event e) eqn:Eu; [by eapply uploader_step_wf|].
  pose proof Hinv as (H1 & H2 & H3 & H4). pose proof Hwf as (Hp & Hi & Hn & Hl & Hu).
  destruct e; try discriminate Eu; unfold step, page_step in Hstep; simpl in Hstep;
    invert_step Hstep; simpl.
  - (* PrepDone *)
    pose proof (Forall_lookup_1 _ _ _ _ Hp Heqo) as Hv.
    match goal with E : processFile_finish _ _ _ = (?u, ?o) |- _ =>
      pose proof (f_equal (fun x => u_isProcessing x.1) E) as Hb; simpl in Hb;
      rewrite finish_uploader_idle in Hb; destruct o as [im|] end;
      (split_wf; simpl; [by apply Forall_delete | | | | intros _; by rewrite <- Hb]); try assumption.
    + intros ? [= <-].
      match goal with E : processFile_finish _ _ _ = (_, Some _) |- _ =>
        exact (prep_image_typed _ _ _ _ _ _ Hv E) end.
    + done.
  - split_wf; simpl; try assumption; intros; congruence.
  - apply start_wf; [by apply inv_loading_idle | done | done].
  - exact Hwf.
  - apply start_wf; [apply inv_loading_idle; [done | by apply inv_loading_error] | done | done].
  - exact Hwf.
  - assert (Hl0 : isLoading (app w) = true) by (apply H2; intros E; by rewrite E in Heqo).
    unfold handleTransform_finish. destruct (transform_outcome p fr);
      split_wf; simpl; try assumption; try done;
      intros Hnone; rewrite (Hn Hnone) in Hl0; discriminate.
  - pose proof (inv_loading_result w Hinv ltac:(assumption)) as Hl0.
    split_wf; simpl; try assumption; [|congruence].
    intros Hnone. rewrite (Hn Hnone) in *. done.
  - pose proof (inv_loading_result w Hinv ltac:(assumption)) as Hl0.
    split_wf; simpl; try assumption; [done | | congruence].
    intros _. unfold handleStartOver. by rewrite Hl0.
  - split_wf; simpl; try assumption; [done | | congruence].
    intros _. unfold handleImageReset. by rewrite H0.
Qed.

Lemma reachable_wf w : reachable w -> inv_loading w /\ wf_world w.
Proof.
  induction 1 as [|w e w' _ [IHi IHw] Hs].
  - split; [unfold inv_loading; simpl; naive_solver | split_wf; simpl; try done; constructor].
  - split; [by eapply step_inv_loading | by eapply step_wf].
Qed.

(** C6: in every reachable world the held image comes from a file of a
    supported type and of at most 10 MiB, and its [mimeType] is that
    file's type; every preparation in flight is of such a file. *)
Theorem reachable_image_typed w :
  reachable w ->
  (forall img, uploadedImage (app w) = Some img ->
     file_type (file img) ∈ SUPPORTED_TYPES /\ (file_size (file img) <= MAX_FILE_SIZE)%N /\
     mimeType img = file_type (file img)) /\
  Forall (fun f => validateFile f = None) (preps w).
Proof.
  intros Hr. destruct (reachable_wf w Hr) as [_ (Hp & Hi & _)]. split; [|done].
  intros img Himg. destruct (Hi img Himg) as [[Ht Hs]%validateFile_None Hm]. done.
Qed.

(** While a request is in flight the page holds exactly one, and the
    style it selects is the style the request was sent with. *)
Lemma reachable_overlay_style w :
  reachable w -> isLoading (app w) = true ->
  exists p, inflight w = [p] /\ selectedStyle (app w) = Some (captured_style p).
Proof.
  intros Hr Hl. destruct (reachable_wf w Hr) as [(Hlen & Hload & _) (_ & _ & _ & Hst & _)].
  destruct (inflight w) as [|p [|q l]] eqn:E; simpl in Hlen; [naive_solver | | lia].
  exists p. split; [done|]. specialize (Hst Hl). by inversion Hst.
Qed.

(** C13: whenever no image is held the page is in its initial state: no
    style, no result, no error, not loading -- so the [disabled] test of
    the drop zone's handlers never fires. *)
Theorem reachable_no_image_initial w :
  reachable w -> uploadedImage (app w) = None -> app w = app_init.
Proof. intros Hr. apply (reachable_wf w Hr). Qed.

(** ** Termination and liveness of the operations in flight *)

Definition is_completion (e : event) : bool :=
  match e with PrepDone _ _ _ | TransformDone _ _ => true | _ => false end.

(** [w'] is [w] after one preparation or request settles. *)
Definition completes (w w' : World) : Prop :=
  exists e, is_completion e = true /\ step w e = Some w'.

Definition pending (w : World) : nat := length (preps w) + length (inflight w).

Lemma completes_pending w w' : completes w w' -> pending w' < pending w.
Proof.
  intros (e & He & Hstep). destruct e; try discriminate He;
    unfold step, page_step in Hstep; simpl in Hstep; invert_step Hstep; unfold pending; simpl.
  - rewrite length_delete by eauto. apply lookup_lt_Some in Heqo. lia.
  - rewrite length_delete by eauto. apply lookup_lt_Some in Heqo. lia.
Qed.

Lemma completes_wf : well_founded (fun w' w => completes w w').
Proof.
  apply (wf_incl _ _ (ltof _ pending)); [intros w' w; apply completes_pending | apply well_founded_ltof].
Qed.

(** Some completion is possible while an operation is in flight, whatever
    the way it settles. *)
Lemma completion_enabled w : preps w <> [] \/ inflight w <> [] -> exists w', completes w w'.
Proof.
  intros H. destruct (preps w) as [|f fs] eqn:Ep.
  - destruct (inflight w) as [|p ps] eqn:Ei; [naive_solver|].
    eexists; exists (TransformDone 0 (FetchFailed (Error MSG_UNKNOWN))); split; [done|].
    unfold step, page_step. simpl. by rewrite Ei.
  - eexists; exists (PrepDone 0 ReaderError true); split; [done|].
    unfold step, page_step. simpl. rewrite Ep. simpl. reflexivity.
Qed.

(** [P] holds now, or some completion is possible and [P] eventually
    holds after each of them. *)
Inductive eventually (P : World -> Prop) : World -> Prop :=
| eventually_now w : P w -> eventually P w
| eventually_later w :
    (exists w', completes w w') -> (forall w', completes w w' -> eventually P w') ->
    eventually P w.

(** Nothing in flight, nothing shown as busy. *)
Definition settled (w : World) : Prop :=
  preps w = [] /\ inflight w = [] /\ isLoading (app w) = false /\ u_isProcessing (uploader w) = false.

Lemma completes_reachable w w' : reachable w -> completes w w' -> reachable w'.
Proof. intros Hr (e & _ & Hs). by econstructor. Qed.

(** C5: from every reachable world, once the user stops, the operations
    in flight settle whatever their order and outcomes: every sequence of
    completions ends in a world with nothing in flight, [isLoading] false
    and the uploader not busy. *)
Theorem reachable_settles w : reachable w -> eventually settled w.
Proof.
  induction w as [w IH] using (well_founded_induction completes_wf). intros Hr.
  destruct (reachable_wf w Hr) as [(_ & Hload & _) (_ & _ & _ & _ & Hu)].
  destruct (preps w) as [|f fs] eqn:Ep, (inflight w) as [|p ps] eqn:Ei.
  1: { apply eventually_now. split_and!; [done | done | | by apply Hu].
       destruct (isLoading (app w)); [|done]. naive_solver. }
  all: apply eventually_later; [apply completion_enabled; rewrite Ep, Ei; naive_solver|].
  all: intros w' Hc; apply IH; [done | by eapply completes_reachable].
Qed.

(** The action of the specification an event performs. *)
Definition action_of (e : event) : option action :=
  match e with
  | DragEnter | DragLeave | DragOver | ClickZone | CancelDialog => None
  | Drop _ | ChooseFiles _ => Some AUpload
  | PrepDone _ _ _ => Some AUpload
  | SelectStyle _ => Some AChoose
  | ClickTransform | ClickRetryError => Some ATransform
  | TransformDone _ _ => Some AComplete
  | ClickRetryNewStyle => Some ANewStyle
  | ClickStartOver => Some AStartOver
  | ClickReset => Some AReset
  end.

(** An event refines the specification when it leaves the page state as it
    is, or moves between stages as its action allows. *)
Definition refines (w : World) (e : event) (w' : World) : Prop :=
  app w' = app w \/
  exists a, action_of e = Some a /\ spec_step a (stage_of (app w)) (stage_of (app w')).

(** The events on which the page departs from the specification: a
    re-upload while a style is selected or a request is in flight, a style
    chosen while a result is shown, and "다른 스타일로 변환". *)
Definition diverging_event (w : World) (e : event) : Prop :=
  match e with
  | PrepDone _ _ _ => selectedStyle (app w) <> None \/ isLoading (app w) = true
  | SelectStyle _ => result (app w) <> None
  | ClickRetryNewStyle => True
  | _ => False
  end.

(** Rewrite with the guard hypotheses [isLoading _ = false] and
    [result _ = None]. *)
Ltac rewrite_hyps :=
  repeat match goal with
         | G : isLoading _ = false |- context [isLoading _] => rewrite G
         | G : result _ = None |- context [result _] => rewrite G
         end.

Lemma stage_start s s' p :
  handleTransform_start s = Some (s', p) -> stage_of s' = Transforming.
Proof.
  unfold handleTransform_start. destruct (uploadedImage s), (selectedStyle s); by intros [= <- _].
Qed.

Lemma stage_finish s p fr :
  isLoading s = true -> error s = None -> result s = None ->
  stage_of (handleTransform_finish s p fr) = Resulted \/
  stage_of (handleTransform_finish s p fr) = Failed.
Proof.
  intros _ He Hr. unfold handleTransform_finish, stage_of.
  destruct (transform_outcome p fr); simpl; rewrite ?Hr; auto.
Qed.

Lemma stage_upload s im :
  selectedStyle s = None -> isLoading s = false -> stage_of (handleImageUpload s im) = Uploaded.
Proof. intros Hs Hl. unfold stage_of. simpl. by rewrite Hl, Hs. Qed.

(** C3: the page refines the stage machine of the specification: in a
    reachable world every event either leaves the page state unchanged or
    moves between stages as its action allows, except on the diverging
    events, which the next theorems show always depart from it. *)
Theorem step_refines_stages w e w' :
  reachable w -> step w e = Some w' -> ~ diverging_event w e -> refines w e w'.
Proof.
  intros Hr Hstep Hdiv. pose proof (reachable_inv w Hr) as Hinv.
  pose proof Hinv as (Hlen & Hload & Hquiet & Hexcl). unfold refines.
  step_cases e Hstep; [by left | simpl in Hdiv; simpl ..].
  - destruct o as [im|]; [|by left]. right. eexists; split; [done|].
    rewrite stage_upload; [constructor | destruct (selectedStyle (app w)); naive_solver
      | destruct (isLoading (app w)); naive_solver].
  - right. eexists; split; [done|]. unfold stage_of; simpl. rewrite_hyps.
    destruct (result (app w)); [naive_solver|].
    destruct (error (app w)), (uploadedImage (app w)), (selectedStyle (app w));
      try congruence; constructor; auto.
  - right. eexists; split; [done|]. rewrite (stage_start _ _ _ Heqo). unfold stage_of. rewrite_hyps.
    destruct (error (app w)), (uploadedImage (app w)), (selectedStyle (app w)); try congruence;
      constructor; auto.
  - by left.
  - right. eexists; split; [done|]. rewrite (stage_start _ _ _ Heqo). unfold stage_of.
    rewrite (inv_loading_error w Hinv ltac:(assumption)), (Hexcl ltac:(assumption)).
    destruct (error (app w)); try congruence; constructor; auto.
  - by left.
  - right. eexists; split; [done|].
    assert (Hl : isLoading (app w) = true) by (apply Hload; intros E; by rewrite E in Heqo).
    destruct (Hquiet Hl) as [He Hres]. unfold stage_of at 1. rewrite Hl.
    destruct (stage_finish (app w) p fr Hl He Hres) as [-> | ->]; constructor; auto.
  - done.
  - right. eexists; split; [done|]. unfold stage_of. simpl.
    rewrite (inv_loading_result w Hinv ltac:(assumption)). destruct (result (app w)); [|congruence].
    constructor; auto.
  - right. eexists; split; [done|]. unfold stage_of at 2. simpl. rewrite_hyps. apply sp_reset.
Qed.

Lemma not_refines w e w' :
  app w' <> app w ->
  (forall a, action_of e = Some a -> ~ spec_step a (stage_of (app w)) (stage_of (app w'))) ->
  ~ refines w e w'.
Proof. intros Hne Hs [H | (a & Ha & Hst)]; [done | exact (Hs a Ha Hst)]. Qed.

(** C18: the diverging events always depart from the stage machine.
    Whenever a re-upload lands while a style is selected or a request is
    in flight, a style is chosen while a result is shown, or
    "다른 스타일로 변환" is clicked, and the page state changes, the move
    is not one the specification allows: the re-upload keeps the style
    (or the loading state) instead of reaching [Uploaded], the choice keeps
    the result instead of reaching [StyleChosen], and the retry clears the
    style instead of keeping one.  With the refinement theorem above, a
    state-changing event refines the specification exactly when it does
    not diverge. *)
Theorem diverging_events_depart w e w' :
  step w e = Some w' -> diverging_event w e -> app w' <> app w -> ~ refines w e w'.
Proof.
  intros Hstep Hdiv Hne. apply not_refines; [exact Hne|].
  destruct e; simpl in Hdiv; try contradiction; unfold step, page_step in Hstep; simpl in Hstep;
    invert_step Hstep; intros a [= <-]; simpl.
  - destruct o as [im|]; [|done]. unfold stage_of; simpl.
    destruct (isLoading (app w)); [inversion 1|].
    destruct Hdiv as [Hs|Hl]; [|discriminate]. destruct (selectedStyle (app w)); [inversion 1|done].
  - unfold stage_of; simpl. rewrite_hyps. destruct (result (app w)); [|done]. inversion 1.
  - unfold stage_of; simpl. destruct (isLoading (app w)), (result (app w)), (error (app w));
      try discriminate; destruct (uploadedImage (app w)); inversion 1.
Qed.

(** A run in which no preparation settles while a request is in flight. *)
Fixpoint run_quiet_ok (w : World) (es : list event) : bool :=
  match es with
  | [] => true
  | e :: es' =>
      match step w e with
      | Some w' => (negb (is_prep_done e) || bool_decide (inflight w = [])) && run_quiet_ok w' es'
      | None => false
      end
  end.

Lemma run_quiet w es w' :
  reachable_quiet w -> run_quiet_ok w es = true -> run w es = Some w' -> reachable_quiet w'.
Proof.
  revert w. induction es as [|e es IH]; simpl; intros w Hw Hok Hrun; [by simplify_eq|].
  destruct (step w e) as [w1|] eqn:E; [|discriminate]. simpl in Hrun.
  apply andb_prop in Hok as [Hq Hok]. eapply IH; [|exact Hok|exact Hrun].
  eapply quiet_step; [exact Hw|exact E|]. intros Hp. rewrite Hp in Hq.
  by apply bool_decide_eq_true_1 in Hq.
Qed.

End Page.

End App.
