(* ===== verification/Integration.v ===== *)
(** * The page composed with the endpoint, and concrete runs of the page

    [TransformEndpoint] is the interface between the page
    ([src/app/page.tsx]) and the server route
    ([src/app/api/transform/route.ts]): what the page relies on from the
    endpoint it fetches.  The client theorems are proved against the
    interface; [proxy_endpoint] discharges it with [Proxy.POST], the
    [fetch] being answered by [server_fetch].

    A theorem of the file composes the page's [handleTransform] with
    the route for any configuration and model.  The rest of the file runs
    the page of [Controller.v] on concrete events with a concrete codec:
    instances of the general theorems at reachable worlds -- the race of
    two preparations, a departure from the stage machine, the end-to-end
    scenario of section 8 of the specification. *)

From Stdlib Require Import QArith.
From S2P Require Import Prelude Js Catalog Prepare Proxy Controller.
Import Catalog Prepare App.

Module Integration.

(** ** The endpoint as the page relies on it

    The page sends [transform_body] and reads the status and the body of
    the reply.  What it relies on is that a body without an image is
    refused with status 400 and a non-empty message; [Proxy.POST] promises
    that once the server has its key ([proxy_endpoint]). *)
Class TransformEndpoint := {
  endpoint : json -> fetch_result;
  missing_message : string;
  missing_message_nonempty : missing_message <> EmptyString;
  endpoint_no_image b v :
    get_prop (Some b) "imageBase64" = Normal v -> truthy v = false ->
    endpoint b = FetchResponse 400 (Normal (JObj [("error", JStr missing_message)]))
}.

(** [fetch("/api/transform", ...)] answered by the route handler, the body
    crossing [JSON.stringify] and [req.json()] unchanged. *)
Definition server_fetch (e : Proxy.env) (up : Proxy.upstream) (b : json) : fetch_result :=
  let r := Proxy.POST_response e up {| Proxy.req_json := Normal b |} in
  FetchResponse (Proxy.status r) (Normal (Proxy.body r)).

Lemma read_body_image b v :
  get_prop (Some b) "imageBase64" = Normal v ->
  exists m sp, Proxy.read_body {| Proxy.req_json := Normal b |} = Normal (v, m, sp).
Proof. destruct b; cbn; intros H; try discriminate; injection H as <-; eauto. Qed.

Lemma server_fetch_no_image e k up b v :
  Proxy.GEMINI_API_KEY e = Some k -> k <> EmptyString ->
  get_prop (Some b) "imageBase64" = Normal v -> truthy v = false ->
  server_fetch e up b = FetchResponse 400 (Normal (JObj [("error", JStr Proxy.MSG_MISSING)])).
Proof.
  intros Hk Hne Hb Hf. destruct (read_body_image b v Hb) as (m & sp & Hr).
  unfold server_fetch, Proxy.POST_response.
  by rewrite (Proxy.POST_missing_param_eq e k up _ v m sp Hk Hne Hr (or_introl Hf)).
Qed.

Definition proxy_endpoint (e : Proxy.env) (k : string) (up : Proxy.upstream)
    (Hk : Proxy.GEMINI_API_KEY e = Some k) (Hne : k <> EmptyString) : TransformEndpoint :=
  {| endpoint := server_fetch e up;
     missing_message := Proxy.MSG_MISSING;
     missing_message_nonempty := ltac:(discriminate);
     endpoint_no_image b v := server_fetch_no_image e k up b v Hk Hne |}.

(** The request the page answers with when the endpoint is the route. *)
Definition respond (e : Proxy.env) (up : Proxy.upstream) (p : Pending) : fetch_result :=
  server_fetch e up (transform_body (captured_image p) (captured_style p)).

Lemma transform_body_image img sty :
  get_prop (Some (transform_body img sty)) "imageBase64" = Normal (JStr <$> base64 img).
Proof. unfold transform_body. destruct (base64 img); reflexivity. Qed.

(** ** Concrete runs

    A codec for the concrete runs: one-pixel bitmaps, every type
    encodable, every image encoding to the bytes of "ABC". *)
Definition cdraw (_ : unit) (_ _ : N) : unit := tt.
Definition ccan (_ : string) : bool := true.
Definition cenc (_ : string) (_ : Q) (_ : unit) : list Byte.byte := [Byte.x41; Byte.x42; Byte.x43].

Definition cstep := step cdraw ccan cenc.
Definition crun := run cdraw ccan cenc.
Definition creachable := reachable cdraw ccan cenc.

Definition fileA : File := {| file_name := "a.jpg"; file_type := "image/jpeg"; file_size := 2000000 |}.
Definition fileB : File := {| file_name := "b.png"; file_type := "image/png"; file_size := 1000000 |}.

(** The endpoint's reply to a successful transform. *)
Definition reply_ok : fetch_result :=
  FetchResponse 200 (Normal (JObj [("image", JStr "T1VU"); ("mimeType", JStr "image/png")])).

(** Two files picked one after the other before the first is prepared,
    the first prepared, and a style chosen. *)
Definition two_picks : list (@event unit) :=
  [Drop [fileA]; Drop [fileB]; PrepDone 0 (ImageLoaded 800 600 tt) true; SelectStyle anime].

Definition world_of (o : option World) : World :=
  match o with Some w => w | None => world_init end.

Definition w_chosen : World := world_of (crun world_init two_picks).
Definition w_sent : World := world_of (crun w_chosen [ClickTransform]).
Definition w_resulted : World :=
  world_of (crun w_sent [PrepDone 0 (ImageLoaded 640 480 tt) true; TransformDone 0 reply_ok]).



(** ** The end-to-end scenario of section 8 of the specification

    A codec whose bitmaps are their dimensions and whose encoder writes
    them as text ("1024x512"), so that the payload shows the size of the
    canvas it was drawn on. *)
Definition edraw (_ : N * N) (w h : N) : N * N := (w, h).
Definition ecan (_ : string) : bool := true.
Definition eenc (_ : string) (_ : Q) (b : N * N) : list Byte.byte :=
  map Ascii.byte_of_ascii (list_ascii_of_string (string_of_N b.1 ++ "x" ++ string_of_N b.2)).

Definition photo : File :=
  {| file_name := "photo.jpg"; file_type := "image/jpeg"; file_size := 9 * 1024 * 1024 |}.

Definition e2e_events : list (@event (N * N)) :=
  [Drop [photo]; PrepDone 0 (ImageLoaded 2000 1000 (2000%N, 1000%N)) true; SelectStyle anime;
   ClickTransform].

Definition e2e_sent : World := world_of (run edraw ecan eenc world_init e2e_events).

(** The model answers with one inline PNG. *)
Definition e2e_up : Proxy.upstream := Proxy.up_parts 1000 [Proxy.image_part "T1VU"].

(** A run with one file, prepared, a style chosen and the request
    answered. *)
Definition one_pick : list (@event unit) :=
  [Drop [fileA]; PrepDone 0 (ImageLoaded 800 600 tt) true; SelectStyle anime;
   ClickTransform; TransformDone 0 reply_ok].

Definition w_done : World := world_of (crun world_init one_pick).

Lemma crun_reachable es w : crun world_init es = Some w -> creachable w.
Proof. apply run_reachable. constructor. Qed.

Section Client.
Context `{TransformEndpoint}.

(** The page's outcome for a request without payload. *)
Lemma transform_missing_image_eq p :
  base64 (captured_image p) = None \/ base64 (captured_image p) = Some EmptyString ->
  transform_outcome p (endpoint (transform_body (captured_image p) (captured_style p))) =
  Abrupt (Error missing_message).
Proof.
  intros Hb. rewrite (endpoint_no_image _ _ (transform_body_image _ _))
    by (destruct Hb as [-> | ->]; reflexivity).
  cbn -[js_or]. rewrite js_or_truthy; [done|]. apply truthy_str, missing_message_nonempty.
Qed.

(** C29: against any endpoint that keeps its contract, a request whose
    image payload is absent or empty ends in the endpoint's
    missing-parameter message, which the page then shows. *)
Theorem transform_missing_image p :
  base64 (captured_image p) = None \/ base64 (captured_image p) = Some EmptyString ->
  transform_outcome p (endpoint (transform_body (captured_image p) (captured_style p))) =
  Abrupt (Error missing_message).
Proof. apply transform_missing_image_eq. Qed.

(** C21: an image more than 2048 times wider than tall is accepted by the
    uploader, yet every transform of it is refused with the
    missing-parameter message: the zero-height canvas leaves an empty
    payload. *)
Theorem wide_image_refused {Bitmap} (draw : Bitmap -> N -> N -> Bitmap) can_encode encode u f
    (wd ht : positive) (px : Bitmap) sty :
  (2048 * Npos ht < Npos wd)%N ->
  exists img,
    (processFile_finish u f
       (resizeAndConvertToBase64 draw can_encode encode f (ImageLoaded wd ht px) true)).2 = Some img /\
    transform_outcome {| captured_image := img; captured_style := sty |}
      (endpoint (transform_body img sty)) = Abrupt (Error missing_message).
Proof.
  intros Hw. erewrite prepare_degenerate_eq by exact Hw. eexists; split; [reflexivity|].
  apply (transform_missing_image_eq {| captured_image := _; captured_style := sty |}). by right.
Qed.
End Client.

(** ** The page through the route *)

(** The body the page sends, when the image has a payload, is the body
    the route's contract is stated on. *)
Lemma transform_body_client img sty b :
  base64 img = Some b ->
  {| Proxy.req_json := Normal (transform_body img sty) |} =
  Proxy.client_request b (mimeType img) (prompt sty).
Proof. intros Hb. unfold transform_body, Proxy.client_request, Proxy.client_body. by rewrite Hb. Qed.

(** C12: a transform through the route, for any configuration and any
    model.  With the key set and the captured image, type and style
    prompt non-empty, the model is asked with exactly the request built
    from them (the image payload, its type, and the base instruction with
    the style's prompt); when its reply's first inline part carries a
    non-empty image of type [m], the page's outcome is the result whose
    "before" is the captured preview and whose "after" is
    [data:<m>;base64,<data>], for the captured style. *)
Theorem transform_through_route e k up p b g ps m d :
  Proxy.GEMINI_API_KEY e = Some k -> k <> EmptyString ->
  base64 (captured_image p) = Some b -> b <> EmptyString ->
  mimeType (captured_image p) <> EmptyString -> prompt (captured_style p) <> EmptyString ->
  Proxy.outcome (up (Proxy.model_request (Some (JStr b)) (Some (JStr (mimeType (captured_image p))))
                                         (Some (JStr (prompt (captured_style p)))))) = Normal g ->
  Proxy.response_parts g = Some ps ->
  Proxy.first_inline ps = Some {| Proxy.blob_mimeType := Some m; Proxy.blob_data := Some d |} ->
  d <> EmptyString ->
  transform_outcome p (respond e up p) =
    Normal {| originalSrc := preview (captured_image p);
              transformedSrc := "data:" ++ m ++ ";base64," ++ d;
              style := captured_style p |}.
Proof.
  intros Hk Hne Hb Hbne Hm Hpr Hout Hparts Hfirst Hd.
  unfold respond, server_fetch, Proxy.POST_response.
  rewrite (transform_body_client _ _ b Hb), Proxy.POST_eq, (Proxy.getAI_ok e k), Proxy.read_body_client,
    Proxy.missing_client by done.
  rewrite bool_decide_eq_false_2 by naive_solver. rewrite Hout. simpl.
  unfold Proxy.normalize. rewrite Hparts, Hfirst. cbn.
  apply truthy_str in Hd. repeat case_decide; simplify_eq/=. by rewrite Hd.
Qed.


Lemma reachable_inv_loading_witness : creachable w_sent /\ inv_loading w_sent.
Proof.
  assert (Hr : creachable w_sent)
    by (apply (crun_reachable (two_picks ++ [ClickTransform])%list); vm_compute; reflexivity).
  split; [exact Hr | exact (reachable_inv_loading cdraw ccan cenc w_sent Hr)].
Defined.

(** A file dropped and not yet prepared. *)
Definition w_dropped : World := world_of (crun world_init [Drop [fileA]]).

Lemma reachable_image_typed_witness :
  creachable w_chosen /\
  (forall img, uploadedImage (app w_chosen) = Some img ->
     file_type (file img) ∈ SUPPORTED_TYPES /\ (file_size (file img) <= MAX_FILE_SIZE)%N /\
     mimeType img = file_type (file img)) /\
  Forall (fun f => validateFile f = None) (preps w_chosen).
Proof.
  assert (Hr : creachable w_chosen) by (apply (crun_reachable two_picks); vm_compute; reflexivity).
  split; [exact Hr | exact (reachable_image_typed cdraw ccan cenc w_chosen Hr)].
Defined.

Lemma reachable_no_image_initial_witness : preps w_dropped = [fileA] /\ app w_dropped = app_init.
Proof.
  split; [vm_compute; reflexivity|].
  apply (reachable_no_image_initial cdraw ccan cenc w_dropped);
    [apply (crun_reachable [Drop [fileA]]); vm_compute; reflexivity | vm_compute; reflexivity].
Defined.

Lemma reachable_settles_witness : eventually cdraw ccan cenc settled w_sent.
Proof.
  apply (reachable_settles cdraw ccan cenc w_sent).
  apply (crun_reachable (two_picks ++ [ClickTransform])%list); vm_compute; reflexivity.
Defined.

Lemma reachable_quiet_coherent_witness :
  reachable_quiet cdraw ccan cenc w_done /\ coherent w_done.
Proof.
  assert (Hq : reachable_quiet cdraw ccan cenc w_done).
  { apply (run_quiet cdraw ccan cenc world_init one_pick);
      [constructor | vm_compute; reflexivity | vm_compute; reflexivity]. }
  split; [exact Hq | apply (reachable_quiet_coherent cdraw ccan cenc w_done Hq)].
Defined.

Lemma step_refines_stages_witness :
  creachable w_chosen /\ cstep w_chosen ClickTransform = Some w_sent /\
  ~ @diverging_event unit w_chosen ClickTransform /\ @refines unit w_chosen ClickTransform w_sent.
Proof.
  assert (Hr : creachable w_chosen) by (apply (crun_reachable two_picks); vm_compute; reflexivity).
  assert (Hs : cstep w_chosen ClickTransform = Some w_sent) by (vm_compute; reflexivity).
  assert (Hd : ~ @diverging_event unit w_chosen ClickTransform) by (simpl; tauto).
  split; [exact Hr|]. split; [exact Hs|]. split; [exact Hd|].
  exact (step_refines_stages cdraw ccan cenc w_chosen ClickTransform w_sent Hr Hs Hd).
Defined.

Lemma transform_missing_image_witness :
  transform_outcome {| captured_image := {| file := fileA; preview := "data:,"; base64 := Some EmptyString;
                                            mimeType := "image/jpeg" |};
                       captured_style := anime |}
    (server_fetch Proxy.env_ok (Proxy.up_parts 1000 []) (transform_body {| file := fileA; preview := "data:,";
        base64 := Some EmptyString; mimeType := "image/jpeg" |} anime)) =
  Abrupt (Error Proxy.MSG_MISSING).
Proof.
  apply (@transform_missing_image (proxy_endpoint Proxy.env_ok "key" (Proxy.up_parts 1000 []) eq_refl
                                     ltac:(discriminate))).
  right. reflexivity.
Defined.

Lemma wide_image_refused_witness :
  exists img,
    (processFile_finish uploader_init fileA
       (resizeAndConvertToBase64 cdraw ccan cenc fileA (ImageLoaded 3000 1 tt) true)).2 = Some img /\
    transform_outcome {| captured_image := img; captured_style := anime |}
      (server_fetch Proxy.env_ok (Proxy.up_parts 1000 []) (transform_body img anime)) = Abrupt (Error Proxy.MSG_MISSING).
Proof.
  apply (@wide_image_refused (proxy_endpoint Proxy.env_ok "key" (Proxy.up_parts 1000 []) eq_refl
                                ltac:(discriminate)) unit cdraw ccan cenc).
  vm_compute. reflexivity.
Defined.

(** The request of [w_sent], the second file's image, and the result. *)
Definition p_sent : Pending := Eval vm_compute in
  match inflight w_sent with
  | p :: _ => p
  | [] => {| captured_image := {| file := fileA; preview := EmptyString; base64 := None;
                                  mimeType := EmptyString |}; captured_style := anime |}
  end.

Definition im_B : UploadedImage := Eval vm_compute in
  default (captured_image p_sent)
    (processFile_finish (uploader w_sent) fileB
       (resizeAndConvertToBase64 cdraw ccan cenc fileB (ImageLoaded 640 480 tt) true)).2.

Definition r_sent : TransformResult := Eval vm_compute in
  match transform_outcome p_sent reply_ok with
  | Normal r => r
  | Abrupt _ => {| originalSrc := EmptyString; transformedSrc := EmptyString; style := anime |}
  end.

Definition w_B : World := world_of (crun w_sent [PrepDone 0 (ImageLoaded 640 480 tt) true]).

(** Close a goal about the concrete runs by evaluation. *)
Ltac by_eval := first [ vm_compute; reflexivity | intros ?H; vm_compute in H; discriminate H ].

Lemma prep_during_request_incoherent_witness :
  creachable w_sent /\
  preps w_sent !! 0 = Some fileB /\ inflight w_sent !! 0 = Some p_sent /\
  (processFile_finish (uploader w_sent) fileB
     (resizeAndConvertToBase64 cdraw ccan cenc fileB (ImageLoaded 640 480 tt) true)).2 = Some im_B /\
  preview im_B <> preview (captured_image p_sent) /\
  cstep w_sent (PrepDone 0 (ImageLoaded 640 480 tt) true) = Some w_B /\
  transform_outcome p_sent reply_ok = Normal r_sent /\
  cstep w_B (TransformDone 0 reply_ok) = Some w_resulted /\
  (result (app w_resulted) = Some r_sent /\ uploadedImage (app w_resulted) = Some im_B /\
   ~ coherent w_resulted).
Proof.
  split; [apply (crun_reachable (two_picks ++ [ClickTransform])%list); by_eval|].
  do 7 (split; [by_eval|]).
  apply (prep_during_request_incoherent cdraw ccan cenc w_sent 0 fileB (ImageLoaded 640 480 tt) true
           w_B 0 p_sent reply_ok r_sent w_resulted im_B); by_eval.
Defined.

(** A second upload while a style is selected. *)
Definition w_reup : World := world_of (crun w_chosen [PrepDone 0 (ImageLoaded 640 480 tt) true]).

Lemma diverging_events_depart_witness :
  creachable w_chosen /\
  cstep w_chosen (PrepDone 0 (ImageLoaded 640 480 tt) true) = Some w_reup /\
  diverging_event w_chosen (PrepDone 0 (ImageLoaded 640 480 tt) true) /\
  app w_reup <> app w_chosen /\
  ~ @refines unit w_chosen (PrepDone 0 (ImageLoaded 640 480 tt) true) w_reup.
Proof.
  assert (Hs : cstep w_chosen (PrepDone 0 (ImageLoaded 640 480 tt) true) = Some w_reup) by by_eval.
  assert (Hd : diverging_event w_chosen (PrepDone 0 (ImageLoaded 640 480 tt) true)) by (left; by_eval).
  assert (Hne : app w_reup <> app w_chosen) by by_eval.
  split; [apply (crun_reachable two_picks); by_eval|].
  split; [exact Hs|]. split; [exact Hd|]. split; [exact Hne|].
  exact (diverging_events_depart cdraw ccan cenc w_chosen _ w_reup Hs Hd Hne).
Defined.

(** The request of the end-to-end scenario of section 8 of the
    specification and its payload. *)
Definition p_e2e : Pending := Eval vm_compute in
  match inflight e2e_sent with
  | p :: _ => p
  | [] => p_sent
  end.

Definition b_e2e : string := Eval vm_compute in default EmptyString (base64 (captured_image p_e2e)).

Lemma transform_through_route_witness :
  reachable edraw ecan eenc e2e_sent /\ inflight e2e_sent = [p_e2e] /\ captured_style p_e2e = anime /\
  preview (captured_image p_e2e) =
    "data:image/jpeg;base64," ++ base64_encode (eenc "image/jpeg" (9 # 10) (1024%N, 512%N)) /\
  transform_outcome p_e2e (respond Proxy.env_ok e2e_up p_e2e) =
    Normal {| originalSrc := preview (captured_image p_e2e);
              transformedSrc := "data:" ++ "image/png" ++ ";base64," ++ "T1VU";
              style := captured_style p_e2e |}.
Proof.
  split; [apply (run_reachable _ _ _ world_init e2e_events); [constructor | by_eval]|].
  do 3 (split; [by_eval|]).
  apply (transform_through_route Proxy.env_ok "key" e2e_up p_e2e b_e2e
           (Proxy.reply_of [Proxy.image_part "T1VU"]) [Proxy.image_part "T1VU"] "image/png" "T1VU");
    by_eval.
Defined.

End Integration.
