(* ===== verification/Download.v ===== *)
(** * The JPEG download, [downloadAsJpg] of [src/lib/utils.ts] and
      [handleDownload] of [src/components/ResultView.tsx]

    The result image is decoded into an image element, drawn on a canvas
    of its natural size over a white rectangle, encoded as JPEG at quality
    0.92 and saved through a temporary anchor whose [download] attribute is
    [${styleName}_${Math.floor(Date.now() / 1000)}.jpg].

    Pixels are RGBA quadruples of 8-bit channels, as [getImageData] shows
    them; [over] is the source-over operator of Compositing and Blending
    Level 1 on non-premultiplied colours, with the division rounded to the
    nearest integer.  A bitmap is its list of rows.  The JPEG encoder
    behind [toBlob] is a parameter of [Section Encoder]: it may fail
    ([null] blob) and is lossy, so the theorems speak of the canvas it is
    given.  [handleDownload] is split at its [await]: the state the click
    sets, then the state once [downloadAsJpg] settles. *)

From Stdlib Require Import QArith.
From S2P Require Import Prelude Js Catalog Controller.
Import Catalog.

Module Download.

Record rgba := { red : Z; green : Z; blue : Z; alpha : Z }.

Definition channel_ok (c : Z) : bool := (0 <=? c)%Z && (c <=? 255)%Z.
Definition rgba_ok (p : rgba) : bool :=
  channel_ok (red p) && channel_ok (green p) && channel_ok (blue p) && channel_ok (alpha p).

(** A fresh canvas is transparent black; [fillStyle = "#FFFFFF"]. *)
Definition transparent_black : rgba := {| red := 0; green := 0; blue := 0; alpha := 0 |}.
Definition white : rgba := {| red := 255; green := 255; blue := 255; alpha := 255 |}.

(** One colour channel of source over destination, with [ao255] the
    resulting alpha scaled by 255. *)
Definition blend (cs cd sa da ao255 : Z) : Z :=
  if (ao255 =? 0)%Z then 0
  else ((cs * sa * 255 + cd * da * (255 - sa) + ao255 / 2) / ao255)%Z.

Definition over (s d : rgba) : rgba :=
  let ao255 := (alpha s * 255 + alpha d * (255 - alpha s))%Z in
  {| red := blend (red s) (red d) (alpha s) (alpha d) ao255;
     green := blend (green s) (green d) (alpha s) (alpha d) ao255;
     blue := blend (blue s) (blue d) (alpha s) (alpha d) ao255;
     alpha := ((ao255 + 127) / 255)%Z |}.

Notation bitmap := (list (list rgba)) (only parsing).

(** [canvas.width = img.naturalWidth; canvas.height = img.naturalHeight]. *)
Definition natural_width (img : bitmap) : nat := match img with [] => 0 | r :: _ => length r end.
Definition natural_height (img : bitmap) : nat := length img.

Definition rectangular (img : bitmap) : Prop :=
  Forall (fun r => length r = natural_width img) img.

Definition new_canvas (w h : nat) : bitmap := replicate h (replicate w transparent_black).

(** [ctx.fillRect(0, 0, canvas.width, canvas.height)] *)
Definition fill_rect (color : rgba) (c : bitmap) : bitmap := map (map (over color)) c.

(** [ctx.drawImage(img, 0, 0)] with an image of the canvas's size. *)
Definition draw_image (img c : bitmap) : bitmap := zip_with (zip_with over) img c.

(** Lines 87-99: the canvas handed to [toBlob]. *)
Definition composite (img : bitmap) : bitmap :=
  draw_image img (fill_rect white (new_canvas (natural_width img) (natural_height img))).

Definition pixel_at (b : bitmap) (i j : nat) : option rgba := b !! i ≫= (fun r => r !! j).

(** ** [downloadAsJpg], lines 79-124 *)

Definition MSG_CONTEXT_FAILED : string := "Canvas context 생성 실패".
Definition MSG_BLOB_FAILED : string := "Blob 변환 실패".
Definition MSG_LOAD_FAILED : string := "이미지 로드 실패".

(** [img.onload] with the decoded pixels, or [img.onerror]. *)
Inductive img_event := DImgError | DImgLoaded (pixels : bitmap).

Inductive deffect :=
| CreateObjectURL                 (** [URL.createObjectURL(blob)] *)
| ClickAnchor (download : string) (** [a.download = ...; a.click()] *)
| RevokeObjectURL.                (** [URL.revokeObjectURL(url)] *)

(** Line 110, with [Date.now()] in milliseconds. *)
Definition file_name (styleName : string) (now : N) : string :=
  styleName ++ "_" ++ string_of_N (now / 1000) ++ ".jpg".

Section Encoder.

(** [canvas.toBlob(cb, "image/jpeg", 0.92)]: the blob, or [null]. *)
Variable toBlob : bitmap -> string -> Q -> option (list Byte.byte).

Definition downloadAsJpg (imageSrc styleName : string) (ev : img_event) (ctx_ok : bool) (now : N)
  : traced deffect (list Byte.byte) :=
  match ev with
  | DImgError => mthrow (Error MSG_LOAD_FAILED)
  | DImgLoaded img =>
      if negb ctx_ok then mthrow (Error MSG_CONTEXT_FAILED) else
      match toBlob (composite img) "image/jpeg" (92 # 100) with
      | None => mthrow (Error MSG_BLOB_FAILED)
      | Some blob =>
          _ ← emit CreateObjectURL;
          _ ← emit (ClickAnchor (file_name styleName now));
          _ ← emit RevokeObjectURL;
          mret blob
      end
  end.

(** ** [handleDownload], ResultView.tsx lines 22-33 *)

Definition MSG_DOWNLOAD_FAILED : string := "다운로드에 실패했습니다. 다시 시도해주세요.".

Record DownloadState := { isDownloading : bool; downloadError : option string }.

(** Lines 23-24, before the [await]: [setIsDownloading(true);
    setDownloadError(null)]. *)
Definition handleDownload_start (d : DownloadState) : DownloadState :=
  {| isDownloading := true; downloadError := None |}.

(** Lines 25-32, once [downloadAsJpg] settles: the message on failure,
    then [setIsDownloading(false)] in [finally]. *)
Definition handleDownload_finish (d : DownloadState) (r : App.TransformResult) (ev : img_event)
    (ctx_ok : bool) (now : N) : list deffect * DownloadState :=
  let '(log, c) := downloadAsJpg (App.transformedSrc r) (nameEn (App.style r)) ev ctx_ok now in
  (log, {| isDownloading := false;
           downloadError := match c with Normal _ => downloadError d | Abrupt _ => Some MSG_DOWNLOAD_FAILED end |}).

(** [handleDownload], lines 22-33: the click, then the settling of the
    download, with the state the click left. *)
Definition handleDownload (d : DownloadState) (r : App.TransformResult) (ev : img_event)
    (ctx_ok : bool) (now : N) : list deffect * DownloadState :=
  handleDownload_finish (handleDownload_start d) r ev ctx_ok now.

End Encoder.

(** ** Reading a file name back *)

(** The longest prefix of digits, and the rest. *)
Fixpoint span_digits (s : string) : string * string :=
  match s with
  | String c s' =>
      if is_digit c then let '(d, r) := span_digits s' in (String c d, r) else (EmptyString, s)
  | EmptyString => (EmptyString, EmptyString)
  end.

Definition parse_file_name (s : string) : option (string * N) :=
  match split_char "_"%char s with
  | [slug; rest] =>
      match span_digits rest with
      | (d, ".jpg") => n ← N_of_string d; Some (slug, n)
      | _ => None
      end
  | _ => None
  end.

(** ** Compositing *)

Lemma channel_ok_iff c : channel_ok c = true <-> (0 <= c <= 255)%Z.
Proof. unfold channel_ok. rewrite andb_true_iff, Z.leb_le, Z.leb_le. done. Qed.

Lemma rgba_ok_iff p :
  rgba_ok p = true <->
  (0 <= red p <= 255 /\ 0 <= green p <= 255 /\ 0 <= blue p <= 255 /\ 0 <= alpha p <= 255)%Z.
Proof. unfold rgba_ok. rewrite !andb_true_iff, !channel_ok_iff. tauto. Qed.

Lemma blend_bound cs cd sa da :
  (0 <= cs <= 255 -> 0 <= cd <= 255 -> 0 <= sa <= 255 -> 0 <= da <= 255 ->
   0 <= blend cs cd sa da (sa * 255 + da * (255 - sa)) <= 255)%Z.
Proof.
  intros Hcs Hcd Hsa Hda. unfold blend. set (ao := (sa * 255 + da * (255 - sa))%Z).
  destruct (Z.eqb_spec ao 0) as [|Hne]; [lia|].
  assert (Hao : (0 < ao)%Z) by (subst ao; nia).
  pose proof (Z.mul_div_le ao 2 ltac:(lia)). pose proof (Z.div_pos ao 2 ltac:(lia) ltac:(lia)).
  assert (H1 : (0 <= cs * sa * 255 <= 255 * sa * 255)%Z) by nia.
  assert (Ht : (0 <= da * (255 - sa))%Z) by nia.
  assert (H2 : (0 <= cd * da * (255 - sa) <= 255 * (da * (255 - sa)))%Z).
  { rewrite <- Z.mul_assoc. generalize dependent (da * (255 - sa))%Z. intros. nia. }
  split; [apply Z.div_pos; lia|].
  apply Z.lt_succ_r, Z.div_lt_upper_bound; [lia|]. subst ao; lia.
Qed.

Lemma alpha_bound sa da :
  (0 <= sa <= 255 -> 0 <= da <= 255 -> 0 <= (sa * 255 + da * (255 - sa) + 127) / 255 <= 255)%Z.
Proof.
  intros Hsa Hda. split; [apply Z.div_pos; nia|].
  apply Z.lt_succ_r, Z.div_lt_upper_bound; nia.
Qed.

(** A blend whose resulting alpha is full: [ao255 = 255 * 255]. *)
Lemma blend_full cs cd sa da :
  (sa * 255 + da * (255 - sa) = 65025 ->
   blend cs cd sa da 65025 = (cs * sa * 255 + cd * da * (255 - sa) + 32512) / 65025)%Z.
Proof. intros _. reflexivity. Qed.

(** [(c * 65025 + 32512) / 65025 = c]: a channel kept by a full blend. *)
Lemma div_full c : ((c * 65025 + 65025 / 2) / 65025 = c)%Z.
Proof. rewrite Z.div_add_l by lia. change ((65025 / 2) / 65025)%Z with 0%Z. apply Z.add_0_r. Qed.

Lemma over_opaque s d : alpha s = 255%Z -> over s d = s.
Proof.
  destruct s as [r g b a]; simpl; intros ->. unfold over, blend; simpl.
  rewrite Z.sub_diag, Z.mul_0_r, Z.add_0_r. simpl.
  f_equal; rewrite Z.mul_0_r, Z.add_0_r, <- Z.mul_assoc; apply div_full.
Qed.

Lemma over_clear_on_opaque s d : alpha s = 0%Z -> alpha d = 255%Z -> over s d = d.
Proof.
  destruct d as [r g b a]; simpl; intros Hs ->. unfold over, blend; simpl. rewrite Hs. simpl.
  f_equal; rewrite Z.mul_0_r, Z.add_0_l, <- Z.mul_assoc; apply div_full.
Qed.

Lemma over_onto_opaque_alpha s d :
  (0 <= alpha s <= 255)%Z -> alpha d = 255%Z -> alpha (over s d) = 255%Z.
Proof.
  intros Hs Hd. unfold over; simpl. rewrite Hd.
  replace (alpha s * 255 + 255 * (255 - alpha s) + 127)%Z with (255 * 255 + 127)%Z by lia.
  reflexivity.
Qed.

Lemma over_ok s d : rgba_ok s = true -> rgba_ok d = true -> rgba_ok (over s d) = true.
Proof.
  rewrite !rgba_ok_iff. intros (? & ? & ? & ?) (? & ? & ? & ?). unfold over; simpl.
  repeat split; try apply blend_bound; try apply alpha_bound; lia.
Qed.

Lemma fill_white_canvas w h : fill_rect white (new_canvas w h) = replicate h (replicate w white).
Proof.
  unfold fill_rect, new_canvas. rewrite fmap_replicate, fmap_replicate.
  by rewrite over_opaque.
Qed.

Lemma lookup_zip_with_replicate {A B C} (f : A -> B -> C) (l : list A) (y : B) n i :
  length l = n -> zip_with f l (replicate n y) !! i = (fun x => f x y) <$> l !! i.
Proof.
  intros <-. rewrite lookup_zip_with. destruct (l !! i) eqn:E; simpl; [|done].
  rewrite lookup_replicate_2; [done|]. apply lookup_lt_Some in E. done.
Qed.

(** ** The file name *)

Lemma span_digits_app d c r :
  str_forall is_digit d = true -> is_digit c = false ->
  span_digits (d ++ String c r) = (d, String c r).
Proof.
  induction d as [|a d IH]; rewrite ?str_app_nil, ?str_app_cons; simpl.
  - by intros _ ->.
  - intros [-> Hd]%andb_prop Hc. by rewrite IH.
Qed.

Lemma file_name_parse slug now :
  str_mem "_"%char slug = false -> parse_file_name (file_name slug now) = Some (slug, (now / 1000)%N).
Proof.
  intros Hs. unfold parse_file_name, file_name.
  assert (Hd : str_mem "_"%char (string_of_N (now / 1000)) = false)
    by (apply (str_forall_not_mem is_digit); [reflexivity | apply string_of_N_digits]).
  rewrite str_app_cons, str_app_nil, (split_char_app _ slug) by done.
  rewrite split_char_no_sep by (rewrite str_mem_app; by rewrite Hd).
  rewrite span_digits_app by (reflexivity || apply string_of_N_digits).
  simpl. by rewrite N_of_string_of_N.
Qed.


Lemma composite_pixel img i j :
  rectangular img -> pixel_at (composite img) i j = (fun p => over p white) <$> pixel_at img i j.
Proof.
  intros Hrect. unfold composite, draw_image, pixel_at. rewrite fill_white_canvas.
  rewrite (lookup_zip_with_replicate (zip_with over) img _ (natural_height img)) by done.
  destruct (img !! i) as [r|] eqn:Er; cbn; [|reflexivity].
  apply lookup_zip_with_replicate. exact (Forall_lookup_1 _ _ _ _ Hrect Er).
Qed.

(** C17: the canvas handed to the JPEG encoder is the image over white:
    at every pixel of the image it holds the source-over composite of that
    pixel on white, which is opaque and within the 8-bit range; a pixel
    that was fully transparent becomes white (255, 255, 255) and an opaque
    pixel is kept as it is. *)
Theorem composite_white_background img i j p :
  rectangular img -> pixel_at img i j = Some p -> rgba_ok p = true ->
  pixel_at (composite img) i j = Some (over p white) /\
  rgba_ok (over p white) = true /\ alpha (over p white) = 255%Z /\
  (alpha p = 0%Z -> over p white = white) /\ (alpha p = 255%Z -> over p white = p).
Proof.
  intros Hrect Hp Hok. rewrite composite_pixel, Hp by done.
  pose proof Hok as Hb. apply rgba_ok_iff in Hb.
  split; [done|]. split; [by apply over_ok|]. split; [apply over_onto_opaque_alpha; [lia | done]|].
  split; [intros H0; by apply over_clear_on_opaque | apply over_opaque].
Qed.

(** C32: the name of a downloaded file reads back as the style's slug and
    the Unix time in seconds: for every style of the catalogue,
    [${nameEn}_${Math.floor(now / 1000)}.jpg] parses to the slug and
    [now / 1000], since slugs have no underscore. *)
Theorem download_name_roundtrip s now :
  s ∈ STYLES -> parse_file_name (file_name (nameEn s) now) = Some (nameEn s, (now / 1000)%N).
Proof.
  intros Hs. apply file_name_parse, (str_forall_not_mem slug_char); [reflexivity|].
  apply (catalog_wf_slugs STYLES); [vm_compute; reflexivity | done].
Qed.

Section Outcome.
Variable toBlob : bitmap -> string -> Q -> option (list Byte.byte).

(** Every run of [downloadAsJpg] takes one of its four paths. *)
Lemma downloadAsJpg_cases src name ev ctx_ok now :
  (exists blob, downloadAsJpg toBlob src name ev ctx_ok now =
     ([CreateObjectURL; ClickAnchor (file_name name now); RevokeObjectURL], Normal blob)) \/
  (exists msg, downloadAsJpg toBlob src name ev ctx_ok now = ([], Abrupt (Error msg))).
Proof.
  unfold downloadAsJpg. destruct ev as [|img]; [right; by eexists|].
  destruct ctx_ok; simpl; [|right; by eexists].
  destruct (toBlob (composite img) _ _); [left | right]; by eexists.
Qed.

(** C30: [downloadAsJpg] on each of its paths.  When the image loads, the
    2D context exists and the encoder returns a blob, exactly one file is
    saved: that blob, the JPEG at quality 0.92 of the composite canvas
    (not of the image itself), under [file_name], through an object URL
    created before the anchor's click and revoked after it.  Otherwise
    nothing is saved and the promise rejects with the message of the step
    that failed: the image load, the context, or the encoder. *)
Theorem downloadAsJpg_outcome src name ev ctx_ok now :
  (forall img blob, ev = DImgLoaded img -> ctx_ok = true ->
     toBlob (composite img) "image/jpeg" (92 # 100) = Some blob ->
     downloadAsJpg toBlob src name ev ctx_ok now =
       ([CreateObjectURL; ClickAnchor (file_name name now); RevokeObjectURL], Normal blob)) /\
  (ev = DImgError -> downloadAsJpg toBlob src name ev ctx_ok now = ([], Abrupt (Error MSG_LOAD_FAILED))) /\
  (forall img, ev = DImgLoaded img -> ctx_ok = false ->
     downloadAsJpg toBlob src name ev ctx_ok now = ([], Abrupt (Error MSG_CONTEXT_FAILED))) /\
  (forall img, ev = DImgLoaded img -> ctx_ok = true ->
     toBlob (composite img) "image/jpeg" (92 # 100) = None ->
     downloadAsJpg toBlob src name ev ctx_ok now = ([], Abrupt (Error MSG_BLOB_FAILED))).
Proof.
  unfold downloadAsJpg. split_and!.
  - intros img blob -> -> Hb. simpl. by rewrite Hb.
  - by intros ->.
  - by intros img -> ->.
  - intros img -> -> Hb. simpl. by rewrite Hb.
Qed.

(** C31: while the download runs the button is disabled and no error is
    shown, whatever was shown before; once it settles the button is
    enabled again, and the failure message is shown exactly when no file
    was saved. *)
Theorem handleDownload_outcome d r ev ctx_ok now :
  handleDownload_start d = {| isDownloading := true; downloadError := None |} /\
  isDownloading (handleDownload toBlob d r ev ctx_ok now).2 = false /\
  (downloadError (handleDownload toBlob d r ev ctx_ok now).2 = None <->
   (handleDownload toBlob d r ev ctx_ok now).1 =
     [CreateObjectURL; ClickAnchor (file_name (nameEn (App.style r)) now); RevokeObjectURL]) /\
  (downloadError (handleDownload toBlob d r ev ctx_ok now).2 = Some MSG_DOWNLOAD_FAILED <->
   (handleDownload toBlob d r ev ctx_ok now).1 = []).
Proof.
  unfold handleDownload, handleDownload_finish. split; [done|].
  destruct (downloadAsJpg_cases (App.transformedSrc r) (nameEn (App.style r)) ev ctx_ok now)
    as [(blob & ->) | (msg & ->)]; simpl; naive_solver.
Qed.
End Outcome.

(** A two-pixel image: a transparent pixel and an opaque one. *)
Definition img_2x1 : list (list rgba) :=
  [[transparent_black; {| red := 10; green := 20; blue := 30; alpha := 255 |}]].

Lemma composite_white_background_witness :
  pixel_at (composite img_2x1) 0 0 = Some white /\
  pixel_at (composite img_2x1) 0 1 = Some {| red := 10; green := 20; blue := 30; alpha := 255 |}.
Proof.
  destruct (composite_white_background img_2x1 0 0 transparent_black) as (H1 & _ & _ & H0 & _);
    [repeat constructor | reflexivity | reflexivity |].
  destruct (composite_white_background img_2x1 0 1 {| red := 10; green := 20; blue := 30; alpha := 255 |})
    as (H2 & _ & _ & _ & H3); [repeat constructor | reflexivity | reflexivity |].
  split; [rewrite H1, H0 by reflexivity | rewrite H2, H3 by reflexivity]; reflexivity.
Defined.

Lemma download_name_roundtrip_witness :
  parse_file_name (file_name (nameEn anime) 1700000000123) = Some ("anime", 1700000000%N).
Proof. apply (download_name_roundtrip anime). apply (list_elem_of_lookup_2 _ 3). reflexivity. Defined.

End Download.
