(* ===== verification/View.v ===== *)
(** * What the page renders: the components' views and the controls they
      enable

    Each presentational component is a function from its props (and its
    own state) to a record of what it shows, translated from its JSX:
    [StyleCard] ([src/components/StyleCard.tsx]), [StyleGrid]
    ([src/components/StyleGrid.tsx]), [TransformButton]
    ([src/components/TransformButton.tsx]), [LoadingOverlay]
    ([src/components/LoadingOverlay.tsx]), the two renderings of
    [ImageUploader] (lines 104-224) and [ResultView] (lines 35-137).
    [page_view] is the render of [Home] ([src/app/page.tsx] lines 143-212)
    and [control_enabled] says which controls of that render a user can
    operate.  [toFixed2] is ECMAScript's [Number.prototype.toFixed(2)] on
    a non-negative rational, [read_fixed2] reads such a decimal back.
    CSS classes, icons and animations are not modelled.

    The theorems check the page's step function of [Controller.v] against
    this render (a user event is accepted exactly when the render shows
    and enables its control, the overlay names the request's style) and
    the size the uploader prints. *)

From Stdlib Require Import QArith.
From S2P Require Import Prelude Js Catalog Prepare Controller Integration Download.
Import Catalog Prepare App Integration Download.

Module View.

(** ** [StyleCard] *)

Record CardView := {
  card_id : string;                   (** [id={`style-card-${style.id}`}] *)
  card_label : string;                (** [aria-label] *)
  card_pressed : bool;                (** [aria-pressed={isSelected}] *)
  card_onClick : option StyleOption;  (** what a click selects, if anything *)
  card_emoji : string;
  card_name : string;
  card_subtitle : string;             (** [nameEn.replace(/-/g, " ")] *)
  card_tooltip : string               (** [prompt.substring(0, 120)...] *)
}.

(** Lines 18-70; the click handler is [() => !disabled && onSelect(style)]. *)
Definition style_card (style : StyleOption) (isSelected disabled : bool) : CardView :=
  {| card_id := "style-card-" ++ string_of_N (id style);
     card_label := name style ++ " 스타일 선택";
     card_pressed := isSelected;
     card_onClick := if disabled then None else Some style;
     card_emoji := emoji style;
     card_name := name style;
     card_subtitle := subtitle style;
     card_tooltip := String.substring 0 120 (prompt style) ++ "..." |}.

(** ** [StyleGrid] *)

Record GridView := {
  grid_badge : option string;          (** [✨ {selectedStyle.name}] *)
  grid_cards : list CardView
}.

(** Lines 18-50. *)
Definition style_grid (selectedStyle : option StyleOption) (disabled : bool) : GridView :=
  {| grid_badge := (fun s => "✨ " ++ name s) <$> selectedStyle;
     grid_cards := (fun s => style_card s (isSelected selectedStyle s) disabled) <$> STYLES |}.

(** ** [TransformButton] *)

Record ButtonView := {
  tb_enabled : bool;            (** [disabled={disabled || isLoading}] *)
  tb_shimmer : bool;            (** the light effect, lines 30-32 *)
  tb_label : string;
  tb_hint : option string       (** the message under a disabled button *)
}.

(** Lines 14-56. *)
Definition transform_button (disabled isLoading : bool) : ButtonView :=
  {| tb_enabled := negb (disabled || isLoading);
     tb_shimmer := negb disabled && negb isLoading;
     tb_label := if isLoading then "변환 중..." else "스타일 변환하기";
     tb_hint := if disabled && negb isLoading
                then Some "이미지를 업로드하고 스타일을 선택해주세요" else None |}.

(** ** [LoadingOverlay] *)

Record OverlayView := {
  ov_emoji : string;            (** [style?.emoji || "🎨"] *)
  ov_caption : option string    (** [{style.emoji} {style.name} 스타일 적용 중] *)
}.

(** Lines 10-63: [null] when not loading. *)
Definition loading_overlay (isLoading : bool) (style : option StyleOption) : option OverlayView :=
  if negb isLoading then None else
  Some {| ov_emoji := match style with
                      | Some s => if String.eqb (emoji s) EmptyString then "🎨" else emoji s
                      | None => "🎨"
                      end;
          ov_caption := (fun s => emoji s ++ " " ++ name s ++ " 스타일 적용 중") <$> style |}.

(** ** [ImageUploader]'s two renderings *)

(** The digits [Number.prototype.toFixed(2)] writes for its integer [n]
    (ECMAScript 21.1.3.3 steps 10-11): [n]'s decimal digits, padded with
    zeros to at least three, with a point before the last two -- the
    integer part [n / 100], a point, the two digits of [n mod 100]. *)
Definition fixed2 (n : N) : string :=
  string_of_N (n / 100) ++ "." ++ string_of_N ((n mod 100) / 10) ++ string_of_N (n mod 10).

(** [x.toFixed(2)] for [0 <= x < 10^21]: [n] is the integer for which
    [n / 100 - x] is closest to zero, the larger of two (step 10), that
    is [100 x] rounded half up, [Math.round]'s rule. *)
Definition toFixed2 (x : Q) : string := fixed2 (Z.to_N (js_round (x * 100))).

(** [(uploadedImage.file.size / 1024 / 1024).toFixed(2)], line 128; the
    divisions are exact on sizes below 2^53. *)
Definition size_mb (size : N) : string := toFixed2 (inject_Z (Z.of_N size) / 1024 / 1024).

(** Reading a decimal with exactly two fraction digits as hundredths. *)
Definition read_fixed2 (s : string) : option N :=
  match split_char "."%char s with
  | [a; b] =>
      if bool_decide (String.length b = 2%nat)
      then ia ← N_of_string a; ib ← N_of_string b; Some (100 * ia + ib)%N
      else None
  | _ => None
  end.

Inductive UploaderView :=
| UPreview (src name size_text : string) (reset_enabled : bool)             (** lines 105-143 *)
| UDropZone (dragging processing dimmed : bool) (message : option string).  (** lines 147-224 *)

Definition image_uploader (u : Uploader) (uploadedImage : option UploadedImage) (disabled : bool)
  : UploaderView :=
  match uploadedImage with
  | Some im => UPreview (preview im) (Prepare.file_name (file im)) (size_mb (file_size (file im)) ++ " MB")
                        (negb disabled)
  | None => UDropZone (u_isDragging u) (u_isProcessing u) disabled (u_error u)
  end.

(** ** [ResultView] *)

Record ResultViewV := {
  rv_badge : string;               (** [{result.style.emoji} {result.style.name}] *)
  rv_before : string;              (** [src={result.originalSrc}] *)
  rv_after : string;               (** [src={result.transformedSrc}] *)
  rv_after_title : string;         (** [{result.style.name} (After)] *)
  rv_download_enabled : bool;      (** [disabled={isDownloading}] *)
  rv_error : option string         (** [downloadError] *)
}.

Definition result_view (r : TransformResult) (d : DownloadState) : ResultViewV :=
  {| rv_badge := emoji (style r) ++ " " ++ name (style r);
     rv_before := originalSrc r;
     rv_after := transformedSrc r;
     rv_after_title := name (style r) ++ " (After)";
     rv_download_enabled := negb (isDownloading d);
     rv_error := downloadError d |}.

(** ** The page *)

Record PageView := {
  pv_uploader : UploaderView;
  pv_grid : option GridView;
  pv_button : option ButtonView;
  pv_error : option string;        (** the error box with its "다시 시도" button *)
  pv_overlay : option OverlayView;
  pv_result : option ResultViewV
}.

(** [Home]'s render, lines 143-212, with [canTransform] of line 117. *)
Definition page_view (s : AppState) (u : Uploader) (d : DownloadState) : PageView :=
  let canTransform := bool_decide (uploadedImage s <> None) && bool_decide (selectedStyle s <> None) &&
                      negb (isLoading s) in
  {| pv_uploader := image_uploader u (uploadedImage s) (isLoading s);
     pv_grid := if bool_decide (uploadedImage s <> None)
                then Some (style_grid (selectedStyle s) (isLoading s)) else None;
     pv_button := if bool_decide (uploadedImage s <> None) && bool_decide (selectedStyle s <> None) &&
                     bool_decide (result s = None)
                  then Some (transform_button (negb canTransform) (isLoading s)) else None;
     pv_error := error s;
     pv_overlay := if isLoading s then loading_overlay (isLoading s) (selectedStyle s) else None;
     pv_result := (fun r => result_view r d) <$> result s |}.

Inductive control :=
| CZone                        (** the drop zone: drag, drop, click *)
| CCard (s : StyleOption)      (** a style card *)
| CTransform | CRetryError | CRetryNewStyle | CStartOver | CReset | CDownload.

(** Whether a user can operate a control in a render: it is shown and
    not disabled.  The drop zone's handlers test [disabled] themselves. *)
Definition control_enabled (v : PageView) (c : control) : bool :=
  match c with
  | CZone => match pv_uploader v with UDropZone _ _ _ _ => true | UPreview _ _ _ _ => false end
  | CReset => match pv_uploader v with UPreview _ _ _ en => en | UDropZone _ _ _ _ => false end
  | CCard s =>
      match pv_grid v with
      | Some g => bool_decide (Some s ∈ card_onClick <$> grid_cards g)
      | None => false
      end
  | CTransform => match pv_button v with Some b => tb_enabled b | None => false end
  | CRetryError => bool_decide (pv_error v <> None)
  | CRetryNewStyle | CStartOver => bool_decide (pv_result v <> None)
  | CDownload => match pv_result v with Some r => rv_download_enabled r | None => false end
  end.

(** The control a user event operates. *)
Definition control_of {Bitmap} (e : @event Bitmap) : option control :=
  match e with
  | DragEnter | DragLeave | DragOver | Drop _ | ClickZone => Some CZone
  | SelectStyle s => Some (CCard s)
  | ClickTransform => Some CTransform
  | ClickRetryError => Some CRetryError
  | ClickRetryNewStyle => Some CRetryNewStyle
  | ClickStartOver => Some CStartOver
  | ClickReset => Some CReset
  | ChooseFiles _ | CancelDialog | PrepDone _ _ _ | TransformDone _ _ => None
  end.

(** ** The step function against the render *)

Lemma is_Some_if {A} (b : bool) (x : A) : is_Some (if b then Some x else None) <-> b = true.
Proof. destruct b; split; intros H; try done; try (by eexists); by destruct H as [? H]. Qed.

Lemma card_click_in sel d s :
  Some s ∈ card_onClick <$> grid_cards (style_grid sel d) <-> d = false /\ s ∈ STYLES.
Proof.
  rewrite list_elem_of_fmap. split.
  - intros (cv & Hcv & Hin). apply list_elem_of_fmap in Hin as (x & -> & Hx).
    destruct d; simpl in Hcv; [discriminate | by injection Hcv as ->].
  - intros [-> Hs]. exists (style_card s (isSelected sel s) false). split; [done|].
    apply list_elem_of_fmap. by exists s.
Qed.

Section Accept.
Context {Bitmap : Type}.
Variable draw : Bitmap -> N -> N -> Bitmap.
Variable can_encode : string -> bool.
Variable encode : string -> Q -> Bitmap -> list Byte.byte.

(** C4: the page's step function agrees with its render: with the file
    dialog closed, a user event is accepted exactly when the control it
    operates is shown and enabled in [page_view] -- the drop zone without
    an image, a card while not loading, the transform button under
    [canTransform], "다시 시도" with an error, the result view's buttons
    with a result, "다시 선택" with an image while not loading. *)
Theorem step_accepts_iff_rendered w e c d :
  dialog_open w = false -> control_of e = Some c ->
  is_Some (step draw can_encode encode w e) <->
  control_enabled (page_view (app w) (uploader w) d) c = true.
Proof.
  intros Hd Hc. destruct e; simpl in Hc; try discriminate Hc; injection Hc as <-;
    unfold step, page_step, modal_blocked; rewrite Hd; cbn -[STYLES style_grid].
  (* the drop zone's events *)
  1-5: rewrite is_Some_if; unfold image_uploader; destruct (uploadedImage (app w)); simpl;
    split; intros Hx; done.
  (* a style card *)
  - destruct (uploadedImage (app w)), (isLoading (app w)); cbn -[STYLES style_grid];
      rewrite ?is_Some_if, ?bool_decide_eq_true, ?card_click_in; naive_solver.
  (* the transform button, and "다시 시도" *)
  - destruct (uploadedImage (app w)), (selectedStyle (app w)), (result (app w)), (isLoading (app w));
      simpl; split; intros Hx; try done; try (destruct Hx; discriminate).
    all: destruct (handleTransform_start (app w)) as [[]|]; by eexists.
  - destruct (error (app w)); simpl; split; intros Hx; try done; try (destruct Hx; discriminate).
    destruct (handleTransform_start (app w)) as [[]|]; by eexists.
  (* the result view's buttons, and "다시 선택" *)
  - destruct (result (app w)); simpl; split; intros Hx; try done; by destruct Hx.
  - destruct (result (app w)); simpl; split; intros Hx; try done; by destruct Hx.
  - unfold image_uploader. destruct (uploadedImage (app w)), (isLoading (app w)); simpl;
      split; intros Hx; try done; by destruct Hx.
Qed.

(** C19: while a request is in flight the page shows the loading overlay,
    and its caption names the style the request was sent with (the cards
    are disabled while loading, so the selection cannot move away from
    it). *)
Theorem overlay_names_request w d :
  reachable draw can_encode encode w -> isLoading (app w) = true ->
  exists p, inflight w = [p] /\
    ov_caption <$> pv_overlay (page_view (app w) (uploader w) d) =
    Some (Some (emoji (captured_style p) ++ " " ++ name (captured_style p) ++ " 스타일 적용 중")).
Proof.
  intros Hr Hl. destruct (reachable_overlay_style draw can_encode encode w Hr Hl) as (p & Hp & Hs).
  exists p. split; [done|]. unfold page_view; simpl. by rewrite Hl, Hs.
Qed.
End Accept.

(** ** The size shown by the uploader *)

(** The string [n.toFixed(2)] reads back as hundredths. *)
Lemma two_digits d1 d2 :
  (d1 < 10)%N -> (d2 < 10)%N ->
  String.length (string_of_N d1 ++ string_of_N d2) = 2%nat /\
  str_mem "."%char (string_of_N d1 ++ string_of_N d2) = false /\
  N_of_string (string_of_N d1 ++ string_of_N d2) = Some (10 * d1 + d2)%N.
Proof.
  intros H1 H2.
  assert (Hd : forall d, (d < 10)%N -> d = 0%N \/ d = 1%N \/ d = 2%N \/ d = 3%N \/ d = 4%N \/
                 d = 5%N \/ d = 6%N \/ d = 7%N \/ d = 8%N \/ d = 9%N) by (intros; lia).
  destruct (Hd d1 H1) as [->|[->|[->|[->|[->|[->|[->|[->|[->| ->]]]]]]]]];
    destruct (Hd d2 H2) as [->|[->|[->|[->|[->|[->|[->|[->|[->| ->]]]]]]]]]; vm_compute; auto.
Qed.

(** The integer part and the two digits make up the whole. *)
Lemma N_hundredths k : (100 * (k / 100) + (10 * ((k mod 100) / 10) + k mod 10))%N = k.
Proof.
  replace (k mod 10)%N with ((k mod 100) mod 10)%N.
  2: { rewrite (N.div_mod k 100) at 2 by lia. rewrite N.add_comm, N.mul_comm.
       replace (k / 100 * 100)%N with (k / 100 * 10 * 10)%N by lia.
       rewrite N.Div0.mod_add. reflexivity. }
  rewrite <- (N.div_mod (k mod 100) 10) by lia. rewrite <- (N.div_mod k 100) by lia. reflexivity.
Qed.

Lemma read_fixed2_fixed2 k : read_fixed2 (fixed2 k) = Some k.
Proof.
  unfold read_fixed2, fixed2.
  destruct (two_digits ((k mod 100) / 10) (k mod 10)) as (Hlen & Hdot & Hval);
    [apply N.div_lt_upper_bound; [lia|]; pose proof (N.mod_lt k 100); lia | apply N.mod_lt; lia |].
  assert (Hint : str_mem "."%char (string_of_N (k / 100)) = false)
    by (apply (str_forall_not_mem is_digit); [reflexivity | apply string_of_N_digits]).
  change ("." ++ ?x)%string with (String "."%char x).
  rewrite split_char_app, split_char_no_sep by done.
  rewrite bool_decide_eq_true_2 by exact Hlen. rewrite N_of_string_of_N, Hval. simpl. f_equal.
  apply N_hundredths.
Qed.

(** [toFixed]'s integer on the uploader's quotient: [size / 1024 / 1024]
    is [size / 2^20] exactly, and rounding [100] times it half up is
    integer arithmetic. *)
Lemma size_mb_closed n : size_mb n = fixed2 ((200 * n + 1048576) / 2097152).
Proof.
  unfold size_mb, toFixed2. f_equal.
  assert (Hq : (inject_Z (Z.of_N n) / 1024 / 1024 * 100 == (100 * Z.of_N n) # 1048576)%Q)
    by (unfold Qeq; simpl; lia).
  unfold js_round. rewrite Hq. fold (js_round ((100 * Z.of_N n) # 1048576)).
  rewrite js_round_frac. rewrite Z2N.inj_div by lia. f_equal; lia.
Qed.

(** C33: the size the preview shows, [(size / 1024 / 1024).toFixed(2)],
    is a decimal with two fraction digits that reads back as [k / 100],
    where [k] is what ECMAScript's [toFixed] prescribes: the integer for
    which [k / 100] is nearest to the size in MiB, the larger one on a
    tie. *)
Theorem size_mb_nearest n :
  exists k, read_fixed2 (size_mb n) = Some k /\
    forall m : Z,
      (Z.abs (100 * Z.of_N n - Z.of_N k * 1048576) <= Z.abs (100 * Z.of_N n - m * 1048576) /\
       (Z.abs (100 * Z.of_N n - Z.of_N k * 1048576) = Z.abs (100 * Z.of_N n - m * 1048576) ->
        m <= Z.of_N k))%Z.
Proof.
  exists ((200 * n + 1048576) / 2097152)%N. rewrite size_mb_closed, read_fixed2_fixed2.
  split; [done|]. intros m.
  pose proof (N_div_bounds (200 * n + 1048576) 2097152 ltac:(lia)) as Hb.
  set (k := ((200 * n + 1048576) / 2097152)%N) in *.
  assert (Hk : (1048576 * (2 * Z.of_N k) <= 200 * Z.of_N n + 1048576 < 1048576 * (2 * Z.of_N k + 2))%Z)
    by lia.
  destruct (Z.lt_total m (Z.of_N k)) as [Hm|[Hm|Hm]]; [| subst; lia |]; split; lia.
Qed.

(** ** Instances at the concrete runs of [Integration.v] *)

(** [ResultView]'s download state before any click (its [useState]s). *)
Definition download_idle : DownloadState := {| isDownloading := false; downloadError := None |}.

Lemma step_accepts_iff_rendered_witness :
  dialog_open w_chosen = false /\ control_of (@ClickTransform unit) = Some CTransform /\
  (is_Some (cstep w_chosen ClickTransform) <->
   control_enabled (page_view (app w_chosen) (uploader w_chosen) download_idle) CTransform = true).
Proof.
  split; [vm_compute; reflexivity|]. split; [reflexivity|].
  apply (step_accepts_iff_rendered cdraw ccan cenc); [vm_compute; reflexivity | reflexivity].
Defined.

Lemma overlay_names_request_witness :
  creachable w_sent /\ isLoading (app w_sent) = true /\
  exists p, inflight w_sent = [p] /\
    ov_caption <$> pv_overlay (page_view (app w_sent) (uploader w_sent) download_idle) =
    Some (Some (emoji (captured_style p) ++ " " ++ name (captured_style p) ++ " 스타일 적용 중")).
Proof.
  assert (Hr : creachable w_sent)
    by (apply (crun_reachable (two_picks ++ [ClickTransform])%list); vm_compute; reflexivity).
  split; [exact Hr|]. split; [vm_compute; reflexivity|].
  apply (overlay_names_request cdraw ccan cenc w_sent download_idle Hr). vm_compute; reflexivity.
Defined.

End View.
