(* ===== verification/Scroll.v ===== *)
(** * Scrolling: the timers around [scrollIntoView] and [scrollTo]

    [Home] ([src/app/page.tsx]) keeps two refs, [styleGridRef] on the
    section of the style grid (line 162) and [resultRef] on the section of
    the result (line 205).  Three handlers schedule a scroll to one of
    them with [setTimeout] -- after an upload (lines 28-31), after a
    successful transform (lines 77-80) and after "다른 스타일로 변환"
    (lines 94-96) -- and "새 이미지로 시작" scrolls the window to the top
    (line 105).  The scroll runs [ref.current?.scrollIntoView(...)]: it
    does nothing when the section is no longer rendered by then.

    [page_effects] gives the scrolls an accepted event schedules, next to
    the state change of [Controller.step]; [ref_current] says whether a
    ref is attached in a render of [View.page_view].  The theorems show
    that every scheduled scroll finds its section rendered when it fires,
    whatever the user does in between, unless one of the events that
    [clears] names removes the section first. *)

From Stdlib Require Import QArith.
From S2P Require Import Prelude Js Catalog Prepare Controller Integration Download View.
Import Catalog Prepare App Integration Download View.

Module Scroll.

(** The two refs of [Home], lines 19-21. *)
Inductive ref_target := styleGridRef | resultRef.

#[export] Instance ref_target_eq_dec : EqDecision ref_target.
Proof. solve_decision. Defined.

Inductive scroll_effect :=
| ScrollIntoView (r : ref_target) (delay_ms : N)
    (** [setTimeout(() => r.current?.scrollIntoView(...), delay_ms)] *)
| ScrollToTop.
    (** [window.scrollTo({ top: 0, behavior: "smooth" })] *)

(** [r.current] is set exactly while the section carrying [ref={r}] is
    rendered: the grid's section (lines 161-169), the result's section
    (lines 204-212). *)
Definition ref_current (v : PageView) (r : ref_target) : bool :=
  match r with
  | styleGridRef => match pv_grid v with Some _ => true | None => false end
  | resultRef => match pv_result v with Some _ => true | None => false end
  end.

(** The scrolls of each handler. *)
Definition handleImageUpload_fx : list scroll_effect := [ScrollIntoView styleGridRef 300].
Definition transform_success_fx : list scroll_effect := [ScrollIntoView resultRef 300].
Definition handleRetryWithNewStyle_fx : list scroll_effect := [ScrollIntoView styleGridRef 100].
Definition handleStartOver_fx : list scroll_effect := [ScrollToTop].

Section Effects.
Context {Bitmap : Type}.
Variable draw : Bitmap -> N -> N -> Bitmap.
Variable can_encode : string -> bool.
Variable encode : string -> Q -> Bitmap -> list Byte.byte.

(** The scrolls an event schedules: [handleImageUpload] runs when a
    preparation succeeds, the result's scroll when a transform succeeds
    (it follows [setResult] inside the [try]). *)
Definition page_effects (w : World) (e : @event Bitmap) : list scroll_effect :=
  match e with
  | PrepDone i ev ctx_ok =>
      match preps w !! i with
      | Some f =>
          match (processFile_finish (uploader w) f
                   (resizeAndConvertToBase64 draw can_encode encode f ev ctx_ok)).2 with
          | Some _ => handleImageUpload_fx
          | None => []
          end
      | None => []
      end
  | TransformDone i fr =>
      match inflight w !! i with
      | Some p => match transform_outcome p fr with Normal _ => transform_success_fx | Abrupt _ => [] end
      | None => []
      end
  | ClickRetryNewStyle => handleRetryWithNewStyle_fx
  | ClickStartOver => handleStartOver_fx
  | _ => []
  end.

(** One event with the scrolls it schedules. *)
Definition step_fx (w : World) (e : event) : option (World * list scroll_effect) :=
  w' ← step draw can_encode encode w e; Some (w', page_effects w e).

(** The events that may remove a ref's section: the image is cleared by
    "새 이미지로 시작" and "다시 선택"; the result also by a new upload,
    a new transform and "다른 스타일로 변환". *)
Definition clears (r : ref_target) (e : @event Bitmap) : bool :=
  match r, e with
  | _, ClickStartOver | _, ClickReset => true
  | resultRef, (PrepDone _ _ _ | ClickTransform | ClickRetryError | ClickRetryNewStyle) => true
  | _, _ => false
  end.

(** The state a ref's section is rendered in. *)
Definition mounted (s : AppState) (r : ref_target) : Prop :=
  match r with
  | styleGridRef => uploadedImage s <> None
  | resultRef => result s <> None
  end.

Lemma ref_current_mounted s u d r : ref_current (page_view s u d) r = true <-> mounted s r.
Proof.
  destruct r; unfold ref_current, page_view; simpl.
  - case_bool_decide; naive_solver.
  - destruct (result s); naive_solver.
Qed.

Lemma step_keeps_mounted w e w' r :
  step draw can_encode encode w e = Some w' -> clears r e = false ->
  mounted (app w) r -> mounted (app w') r.
Proof.
  intros Hstep Hc Hm. destruct (is_uploader_event e) eqn:Eu.
  { by rewrite (proj1 (uploader_event_frame draw can_encode encode w e w' Eu Hstep)). }
  destruct e; try discriminate Eu; unfold step, page_step in Hstep; simpl in Hstep;
    invert_step Hstep; destruct r; try discriminate Hc; simpl in *;
    unfold handleImageUpload, handleStyleSelect, handleTransform_start, handleTransform_finish in *;
    repeat case_match; simplify_eq; simpl in *; done.
Qed.

Lemma run_keeps_mounted w es w' r :
  run draw can_encode encode w es = Some w' -> Forall (fun e => clears r e = false) es ->
  mounted (app w) r -> mounted (app w') r.
Proof.
  revert w. induction es as [|e es IH]; simpl; intros w Hrun Hc Hm; [by injection Hrun as <-|].
  destruct (step _ _ _ w e) as [w1|] eqn:Hs; [|discriminate]. inversion Hc as [|? ? He Hc']; subst.
  eapply IH; [exact Hrun | exact Hc' | by eapply step_keeps_mounted].
Qed.

(** Right after the event that schedules it, a scroll's section is
    rendered: an upload and a transform render what they scroll to, and
    "다른 스타일로 변환" keeps the image, which a shown result implies. *)
Lemma effects_mounted w e w' r d :
  wf_world w -> step draw can_encode encode w e = Some w' ->
  ScrollIntoView r d ∈ page_effects w e -> mounted (app w') r.
Proof.
  intros (_ & _ & Hn & _) Hstep Hin. destruct e; simpl in Hin;
    try by apply elem_of_nil in Hin.
  - unfold step, page_step in Hstep; simpl in Hstep. invert_step Hstep.
    destruct o as [im|]; simpl in *; [|by apply elem_of_nil in Hin].
    apply list_elem_of_singleton in Hin. simplify_eq. done.
  - unfold step, page_step in Hstep; simpl in Hstep. invert_step Hstep.
    unfold handleTransform_finish. simpl.
    destruct (transform_outcome _ _); [|by apply elem_of_nil in Hin].
    apply list_elem_of_singleton in Hin. by simplify_eq.
  - unfold step, page_step in Hstep; simpl in Hstep. invert_step Hstep.
    apply list_elem_of_singleton in Hin. simplify_eq. simpl.
    intros Hi. specialize (Hn Hi). by rewrite Hn in Heqb0.
  - apply list_elem_of_singleton in Hin. discriminate Hin.
Qed.

(** C20: every scroll an event schedules finds its section rendered when
    its timer fires, whatever events the user performs in the meantime,
    unless one of them may remove that section ([clears]): the grid's
    section stays until the image is cleared, the result's until the
    result is. *)
Theorem scheduled_scroll_lands w e w' fx r d es w'' dl :
  reachable draw can_encode encode w -> step_fx w e = Some (w', fx) -> ScrollIntoView r d ∈ fx ->
  run draw can_encode encode w' es = Some w'' -> Forall (fun e => clears r e = false) es ->
  ref_current (page_view (app w'') (uploader w'') dl) r = true.
Proof.
  intros Hr Hfx Hin Hrun Hc. unfold step_fx in Hfx.
  destruct (step _ _ _ w e) as [w1|] eqn:Hs; simpl in Hfx; [|discriminate]. injection Hfx as <- <-.
  apply ref_current_mounted. eapply run_keeps_mounted; [exact Hrun | exact Hc |].
  eapply effects_mounted; [apply (reachable_wf draw can_encode encode w Hr) | exact Hs | exact Hin].
Qed.

End Effects.

(** The image of [Integration.w_dropped] prepared. *)
Definition w_uploaded : World := world_of (crun w_dropped [PrepDone 0 (ImageLoaded 640 480 tt) true]).

Definition after_upload : list (@event unit) := [SelectStyle anime; ClickTransform].

Lemma scheduled_scroll_lands_witness :
  creachable w_dropped /\
  step_fx cdraw ccan cenc w_dropped (PrepDone 0 (ImageLoaded 640 480 tt) true) =
    Some (w_uploaded, handleImageUpload_fx) /\
  ScrollIntoView styleGridRef 300 ∈ handleImageUpload_fx /\
  crun w_uploaded after_upload = Some (world_of (crun w_uploaded after_upload)) /\
  Forall (fun e => clears styleGridRef e = false) after_upload /\
  ref_current (page_view (app (world_of (crun w_uploaded after_upload)))
                         (uploader (world_of (crun w_uploaded after_upload))) download_idle)
              styleGridRef = true.
Proof.
  assert (Hr : creachable w_dropped) by (apply (crun_reachable [Drop [fileA]]); vm_compute; reflexivity).
  split; [exact Hr|]. split; [vm_compute; reflexivity|]. split; [constructor|].
  split; [vm_compute; reflexivity|]. split; [repeat constructor|].
  apply (scheduled_scroll_lands cdraw ccan cenc w_dropped (PrepDone 0 (ImageLoaded 640 480 tt) true)
           w_uploaded handleImageUpload_fx styleGridRef 300 after_upload
           (world_of (crun w_uploaded after_upload)) download_idle);
    [exact Hr | vm_compute; reflexivity | constructor | vm_compute; reflexivity | repeat constructor].
Defined.

End Scroll.
