(* ===== verification/Layout.v ===== *)
(** * The root layout, [src/app/layout.tsx]

    The layout exports the page's [metadata] (title, description,
    keywords) and [RootLayout], which wraps every page in
    [<html lang="ko" className="dark">] and a [<body>] carrying the font
    variable of [next/font]'s [Inter] and the global classes.  The font's
    generated class name is a parameter; CSS is not modelled.

    [document] composes the layout with the render of [Home]
    ([View.page_view]): the whole document the browser shows.  The
    metadata's description announces 20 styles, while the grid renders one
    card per catalogue entry, 21. *)

From S2P Require Import Prelude Js Catalog Prepare Controller Download View.
Import Catalog Prepare App Download View.

Module Layout.

(** [export const metadata: Metadata], lines 10-15. *)
Record Metadata := { title : string; description : string; keywords : list string }.

Definition metadata : Metadata :=
  {| title := "AI 스타일 변환 | Gemini Image Style Transfer";
     description := "Gemini AI를 활용해 사진을 다양한 아트 스타일로 변환해보세요. 수채화, 유화, 애니메, 지브리, 팝아트 등 20가지 스타일을 지원합니다.";
     keywords := ["AI"; "이미지 변환"; "스타일 변환"; "Gemini"; "아트 스타일"] |}.

(** The document [RootLayout] renders, lines 22-30. *)
Record Document := {
  html_lang : string;
  html_className : string;
  body_className : string;
  body : PageView
}.

(** [RootLayout({ children })], lines 17-31; [font_variable] is
    [inter.variable], the class name [next/font] generates (lines 5-8). *)
Definition RootLayout (font_variable : string) (children : PageView) : Document :=
  {| html_lang := "ko";
     html_className := "dark";
     body_className := font_variable ++ " font-sans antialiased text-gray-100 bg-grid-pattern";
     body := children |}.

(** The document of the running application: [Home] inside the layout. *)
Definition document (font_variable : string) (s : AppState) (u : Uploader) (d : DownloadState)
  : Document :=
  RootLayout font_variable (page_view s u d).

(** The grid renders one card per catalogue entry. *)
Lemma grid_cards_length sel d : length (grid_cards (style_grid sel d)) = length STYLES.
Proof. unfold style_grid; cbn [grid_cards]. by rewrite length_fmap. Qed.

(** The description announces "20가지 스타일" (20 styles), but whenever
    the document shows the style grid it has 21 cards. *)
Theorem metadata_count_mismatch fv s u d g :
  pv_grid (body (document fv s u d)) = Some g ->
  String.index 0 "20가지 스타일" (description metadata) <> None /\
  length (grid_cards g) = 21%nat.
Proof.
  unfold document, RootLayout, page_view; simpl. case_bool_decide; [|discriminate].
  intros [= <-]. split; [vm_compute; discriminate|]. rewrite grid_cards_length. reflexivity.
Qed.

End Layout.
